(** * Local ports: construction, rendering and opening

    A shallow embedding of package [net] of k8s.io/utils ([net/port.go]):
    the [LocalPort] descriptor, its validating constructor [NewLocalPort],
    its [String] method and the opener [openLocalPort].

    The file has three layers.
    - The functions of Go's standard library that [port.go] calls
      ([strconv.Itoa], [strconv.Quote] behind the verb [%q], [fmt.Sprintf],
      [net.ParseIP], [IP.To4], [net.JoinHostPort]), transcribed from the
      library's sources.
    - The operating system behind [net.Listen], [net.ResolveUDPAddr] and
      [net.ListenUDP], as the calls of a small free monad that an arbitrary
      model of the system interprets.
    - The four declarations of [port.go] itself, and the properties of them. *)

From Stdlib Require Import ZArith List String Ascii Bool Lia DecimalString.
Import ListNotations.

#[local] Open Scope string_scope.
#[local] Open Scope Z_scope.

(** ** Bytes and strings

    A Go string is a sequence of bytes, and so is a [string] here: an [ascii]
    is one byte.  [code] is the byte as a number, [chr] the byte of a number
    (Go's conversion [byte(n)], which keeps the low eight bits). *)

Definition code (c : ascii) : Z := Z.of_N (N_of_ascii c).

Definition chr (n : Z) : ascii := ascii_of_N (Z.to_N (n mod 256)).

Definition between (lo : Z) (x : Z) (hi : Z) : bool := (lo <=? x) && (x <=? hi).

(** [s[n:]] *)
Fixpoint drop (n : nat) (s : string) : string :=
  match n, s with
  | O, _ => s
  | S _, EmptyString => EmptyString
  | S n', String _ s' => drop n' s'
  end.

(** [bytealg.IndexByteString(s, c) >= 0] *)
Fixpoint contains_byte (c : ascii) (s : string) : bool :=
  match s with
  | EmptyString => false
  | String c' s' => Ascii.eqb c' c || contains_byte c s'
  end.

(** The double quote, byte 34. *)
Definition dquote : ascii := "034"%char.

Definition lowerhex (n : Z) : ascii :=
  if n <? 10 then chr (code "0" + n) else chr (code "a" + (n - 10)).

(** ** Package [unicode/utf8] *)

Module utf8.

Definition RuneError : Z := 0xFFFD.
Definition RuneSelf : Z := 0x80.
Definition MaxRune : Z := 0x10FFFF.

(** The table [first] together with [acceptRanges]: for a leading byte, the
    length of the encoding it starts and the range its second byte must
    lie in; [None] for a byte that starts no encoding of two bytes or more
    (the table's entries [as] and [xx]). *)
Definition first (b : Z) : option (nat * Z * Z) :=
  if between 0xC2 b 0xDF then Some (2%nat, 0x80, 0xBF)
  else if b =? 0xE0 then Some (3%nat, 0xA0, 0xBF)
  else if between 0xE1 b 0xEC then Some (3%nat, 0x80, 0xBF)
  else if b =? 0xED then Some (3%nat, 0x80, 0x9F)
  else if between 0xEE b 0xEF then Some (3%nat, 0x80, 0xBF)
  else if b =? 0xF0 then Some (4%nat, 0x90, 0xBF)
  else if between 0xF1 b 0xF3 then Some (4%nat, 0x80, 0xBF)
  else if b =? 0xF4 then Some (4%nat, 0x80, 0x8F)
  else None.

(** A continuation byte, between [locb] and [hicb]. *)
Definition cont (c : ascii) : bool := between 0x80 (code c) 0xBF.

Definition low (bits : Z) (c : ascii) : Z := Z.land (code c) (Z.ones bits).

(** [DecodeRuneInString]: the first rune of [s] and its width in bytes;
    [(RuneError, 1)] where the bytes are no encoding, [(RuneError, 0)] for
    the empty string. *)
Definition DecodeRuneInString (s : string) : Z * nat :=
  match s with
  | EmptyString => (RuneError, 0%nat)
  | String c0 s1 =>
      if code c0 <? RuneSelf then (code c0, 1%nat)
      else
        match first (code c0), s1 with
        | None, _ | Some _, EmptyString => (RuneError, 1%nat)
        | Some (sz, lo, hi), String c1 s2 =>
            if (String.length s <? sz)%nat then (RuneError, 1%nat)
            else if negb (between lo (code c1) hi) then (RuneError, 1%nat)
            else
              match sz, s2 with
              | 2%nat, _ => (Z.shiftl (low 5 c0) 6 + low 6 c1, 2%nat)
              | _, EmptyString => (RuneError, 1%nat)
              | _, String c2 s3 =>
                  if negb (cont c2) then (RuneError, 1%nat)
                  else
                    match sz, s3 with
                    | 3%nat, _ =>
                        (Z.shiftl (low 4 c0) 12 + Z.shiftl (low 6 c1) 6
                         + low 6 c2, 3%nat)
                    | _, EmptyString => (RuneError, 1%nat)
                    | _, String c3 _ =>
                        if negb (cont c3) then (RuneError, 1%nat)
                        else
                          (Z.shiftl (low 3 c0) 18 + Z.shiftl (low 6 c1) 12
                           + Z.shiftl (low 6 c2) 6 + low 6 c3, 4%nat)
                    end
              end
        end
  end.

(** [EncodeRune], as the bytes it writes. *)
Definition EncodeRune (r : Z) : string :=
  let tail (sh : Z) := chr (0x80 + Z.land (Z.shiftr r sh) 0x3F) in
  if between 0 r 0x7F then String (chr r) ""
  else if between 0 r 0x7FF then
    String (chr (0xC0 + Z.shiftr r 6)) (String (tail 0) "")
  else if (r <? 0) || (MaxRune <? r) || between 0xD800 r 0xDFFF then
    String (chr 0xEF) (String (chr 0xBF) (String (chr 0xBD) ""))
  else if r <=? 0xFFFF then
    String (chr (0xE0 + Z.shiftr r 12)) (String (tail 6) (String (tail 0) ""))
  else
    String (chr (0xF0 + Z.shiftr r 18))
      (String (tail 12) (String (tail 6) (String (tail 0) ""))).

End utf8.

(** ** Package [strconv] *)

Module strconv.

(** [Itoa]: the decimal digits of an integer, with a minus sign before a
    negative one.  A Go [int] is a 64-bit integer; it is a [Z] here, and
    what is proved of every [Z] holds of every [int]. *)
Definition Itoa (i : Z) : string := NilZero.string_of_int (Z.to_int i).

Section Quote.

(** [IsPrint] decides the runes up to U+00FF by comparisons and the
    others by tables generated from the Unicode database, which are no
    part of this development: they are a parameter. *)
Variable isPrintTable : Z -> bool.

Definition IsPrint (r : Z) : bool :=
  if r <=? 0xFF then
    if between 0x20 r 0x7E then true
    else if between 0xA1 r 0xFF then negb (r =? 0xAD)
    else false
  else isPrintTable r.

(** The hexadecimal digits of [r] from bit [4 * n] down, as the loops
    [for s := 12; s >= 0; s -= 4] and [for s := 28; ...] write them. *)
Fixpoint hexdigits (n : nat) (r : Z) : string :=
  match n with
  | O => ""
  | S n' =>
      String (lowerhex (Z.land (Z.shiftr r (4 * Z.of_nat n')) 0xF))
        (hexdigits n' r)
  end.

(** [appendEscapedRune] with the double quote as quote character and
    neither [ASCIIonly] nor [graphicOnly], as the bytes appended. *)
Definition appendEscapedRune (r : Z) : string :=
  if (r =? code dquote) || (r =? code "\") then String "\" (String (chr r) "")
  else if IsPrint r then utf8.EncodeRune r
  else if r =? 7 then "\a"
  else if r =? 8 then "\b"
  else if r =? 12 then "\f"
  else if r =? 10 then "\n"
  else if r =? 13 then "\r"
  else if r =? 9 then "\t"
  else if r =? 11 then "\v"
  else if r <? code " " then "\x" ++ hexdigits 2 r
  else if utf8.MaxRune <? r then "\u" ++ hexdigits 4 0xFFFD
  else if r <? 0x10000 then "\u" ++ hexdigits 4 r
  else "\U" ++ hexdigits 8 r.

(** The loop of [appendQuotedWith]: [skip] counts the bytes of the rune
    in hand that are still to be passed over ([s = s[width:]]). *)
Fixpoint quoteFrom (skip : nat) (s : string) : string :=
  match s with
  | EmptyString => ""
  | String c s' =>
      match skip with
      | S k => quoteFrom k s'
      | O =>
          let (r, width) :=
            if code c <? utf8.RuneSelf then (code c, 1%nat)
            else utf8.DecodeRuneInString s in
          (if (width =? 1)%nat && (r =? utf8.RuneError)
           then "\x" ++ hexdigits 2 (code c)
           else appendEscapedRune r)
          ++ quoteFrom (width - 1) s'
      end
  end.

(** [Quote]: a double-quoted Go string literal for [s]. *)
Definition Quote (s : string) : string :=
  String dquote (quoteFrom 0 s ++ String dquote "").

End Quote.

End strconv.

(** ** Package [net] of the standard library

    An [IP] is a slice of bytes, a list of numbers below 256 here; the [nil]
    slice that [ParseIP] and [To4] return for "no address" is [None]. *)

Module net.

Definition IP : Type := list Z.

Definition IPv4len : Z := 4.
Definition IPv6len : Z := 16.

(** [byte(n)] *)
Definition byte (n : Z) : Z := n mod 256.

(** [ip[i]] and [ip[i] = v] within the slice. *)
Definition get (ip : IP) (i : Z) : Z := nth (Z.to_nat i) ip 0.

Fixpoint set_nat (ip : IP) (i : nat) (v : Z) : IP :=
  match ip, i with
  | [], _ => []
  | _ :: t, O => v :: t
  | h :: t, S i' => h :: set_nat t i' v
  end.

Definition set (ip : IP) (i : Z) (v : Z) : IP := set_nat ip (Z.to_nat i) v.

(** Bigger than we need, not too big to worry about overflow. *)
Definition big : Z := 0xFFFFFF.

Definition isDigit (c : ascii) : bool := between (code "0") (code c) (code "9").

(** [dtoi]: the decimal number [s] starts with, the count of its digits,
    and whether there is one that stays below [big]. *)
Fixpoint dtoi_from (s : string) (n : Z) (i : nat) : Z * nat * bool :=
  match s with
  | String c s' =>
      if isDigit c then
        let n' := n * 10 + (code c - code "0") in
        if big <=? n' then (big, i, false) else dtoi_from s' n' (S i)
      else if (i =? 0)%nat then (0, 0%nat, false) else (n, i, true)
  | EmptyString => if (i =? 0)%nat then (0, 0%nat, false) else (n, i, true)
  end.

Definition dtoi (s : string) : Z * nat * bool := dtoi_from s 0 0%nat.

(** The value of a hexadecimal digit, of either case. *)
Definition hexval (c : ascii) : option Z :=
  if between (code "0") (code c) (code "9") then Some (code c - code "0")
  else if between (code "a") (code c) (code "f") then Some (code c - code "a" + 10)
  else if between (code "A") (code c) (code "F") then Some (code c - code "A" + 10)
  else None.

(** [xtoi]: the same for a hexadecimal number. *)
Fixpoint xtoi_from (s : string) (n : Z) (i : nat) : Z * nat * bool :=
  match s with
  | String c s' =>
      match hexval c with
      | Some d =>
          let n' := n * 16 + d in
          if big <=? n' then (0, i, false) else xtoi_from s' n' (S i)
      | None => if (i =? 0)%nat then (0, i, false) else (n, i, true)
      end
  | EmptyString => if (i =? 0)%nat then (0, i, false) else (n, i, true)
  end.

Definition xtoi (s : string) : Z * nat * bool := xtoi_from s 0 0%nat.

Definition v4InV6Prefix : IP := [0; 0; 0; 0; 0; 0; 0; 0; 0; 0; 0xff; 0xff].

(** [IPv4(a, b, c, d)]: the address in its 16-byte form. *)
Definition IPv4 (a b c d : Z) : IP :=
  (v4InV6Prefix ++ [a; b; c; d])%list.

(** The loop of [parseIPv4] over the four fields: [i] is the index of the
    field, [p] the fields read so far; the result is those and what is
    left of the string. *)
Fixpoint parseIPv4_fields (fields : nat) (i : Z) (s : string) (p : list Z)
  : option (list Z * string) :=
  match fields with
  | O => Some (p, s)
  | S fields' =>
      match s with
      | EmptyString => None
      | String c0 s0 =>
          if (0 <? i) && negb (Ascii.eqb c0 ".") then None
          else
            let s1 := if 0 <? i then s0 else s in
            let '(n, c, ok) := dtoi s1 in
            if negb ok || (0xFF <? n) then None
            else parseIPv4_fields fields' (i + 1) (drop c s1) (p ++ [byte n])%list
      end
  end.

(** [parseIPv4]: a dotted quad. *)
Definition parseIPv4 (s : string) : option IP :=
  match parseIPv4_fields 4 0 s [] with
  | Some ([a; b; c; d], EmptyString) => Some (IPv4 a b c d)
  | _ => None
  end.

(** The state of the loop of [parseIPv6]: the address being filled, the
    position of the ellipsis in it ([-1] for none), the index [i] of the
    next byte, and what is left of the string. *)
Record v6state : Type := V6
  { v6_ip : IP; v6_ellipsis : Z; v6_i : Z; v6_s : string }.

(** One turn of the loop [for i < IPv6len]: [inl None] for [return nil],
    [inl (Some st)] for [break], [inr st] to go round again. *)
Definition parseIPv6_turn (st : v6state) : option v6state + v6state :=
  let '(V6 ip ellipsis i s) := st in
  let '(n, c, ok) := xtoi s in
  if negb ok || (0xFFFF <? n) then inl None
  else
    match drop c s with
    | String "." _ =>
        if (ellipsis <? 0) && negb (i =? IPv6len - IPv4len) then inl None
        else if IPv6len <? i + IPv4len then inl None
        else
          match parseIPv4 s with
          | None => inl None
          | Some ip4 =>
              let ip := set ip i (get ip4 12) in
              let ip := set ip (i + 1) (get ip4 13) in
              let ip := set ip (i + 2) (get ip4 14) in
              let ip := set ip (i + 3) (get ip4 15) in
              inl (Some (V6 ip ellipsis (i + IPv4len) ""))
          end
    | rest =>
        let ip := set ip i (byte (Z.shiftr n 8)) in
        let ip := set ip (i + 1) (byte n) in
        let i := i + 2 in
        match rest with
        | EmptyString => inl (Some (V6 ip ellipsis i rest))
        | String c0 EmptyString => inl None
        | String c0 (String c1 s2 as s1) =>
            if negb (Ascii.eqb c0 ":") then inl None
            else if Ascii.eqb c1 ":" then
              if 0 <=? ellipsis then inl None
              else
                match s2 with
                | EmptyString => inl (Some (V6 ip i i s2))
                | _ => inr (V6 ip i i s2)
                end
            else inr (V6 ip ellipsis i s1)
        end
    end.

(** The loop: each turn that goes round again has moved [i] two bytes on,
    so [IPv6len / 2] turns reach the end of the address. *)
Fixpoint parseIPv6_loop (turns : nat) (st : v6state) : option v6state :=
  match turns with
  | O => Some st
  | S turns' =>
      if v6_i st <? IPv6len then
        match parseIPv6_turn st with
        | inl r => r
        | inr st' => parseIPv6_loop turns' st'
        end
      else Some st
  end.

(** [for j := lo + count - 1; j >= lo; j-- { ip = body j ip }] *)
Fixpoint downto (count : nat) (lo : Z) (body : Z -> IP -> IP) (ip : IP) : IP :=
  match count with
  | O => ip
  | S k => downto k lo body (body (lo + Z.of_nat k) ip)
  end.

(** [parseIPv6]: an IPv6 literal, possibly with an ellipsis and a trailing
    dotted quad (RFC 4291), without a zone. *)
Definition parseIPv6 (s : string) : option IP :=
  let ip := repeat 0 (Z.to_nat IPv6len) in
  let '(ellipsis, s, only) :=
    match s with
    | String ":" (String ":" s') =>
        (0, s', match s' with EmptyString => true | _ => false end)
    | _ => (-1, s, false)
    end in
  if only then Some ip
  else
    match parseIPv6_loop 8 (V6 ip ellipsis 0 s) with
    | None => None
    | Some (V6 ip ellipsis i s) =>
        match s with
        | String _ _ => None
        | EmptyString =>
            if i <? IPv6len then
              if ellipsis <? 0 then None
              else
                let n := IPv6len - i in
                let ip :=
                  downto (Z.to_nat (i - ellipsis)) ellipsis
                    (fun j ip => set ip (j + n) (get ip j)) ip in
                let ip :=
                  downto (Z.to_nat n) ellipsis (fun j ip => set ip j 0) ip in
                Some ip
            else if 0 <=? ellipsis then None
            else Some ip
        end
    end.

(** The loop of [ParseIP]: the first dot or colon of [s] decides how the
    whole of it is read. *)
Fixpoint ParseIP_scan (rest whole : string) : option IP :=
  match rest with
  | EmptyString => None
  | String c rest' =>
      if Ascii.eqb c "." then parseIPv4 whole
      else if Ascii.eqb c ":" then parseIPv6 whole
      else ParseIP_scan rest' whole
  end.

(** [ParseIP]: an IPv4 or IPv6 literal as a 16-byte address. *)
Definition ParseIP (s : string) : option IP := ParseIP_scan s s.

Definition isZeros (p : IP) : bool := forallb (Z.eqb 0) p.

(** [ip.To4()]: the 4-byte form of an IPv4 address, [nil] for another. *)
Definition To4 (ip : IP) : option IP :=
  if (List.length ip =? 4)%nat then Some ip
  else if (List.length ip =? 16)%nat && isZeros (firstn 10 ip)
          && (get ip 10 =? 0xff) && (get ip 11 =? 0xff)
  then Some (skipn 12 ip)
  else None.

(** [JoinHostPort]: a host with a colon in it is taken for an IPv6 literal
    and put in brackets. *)
Definition JoinHostPort (host port : string) : string :=
  if contains_byte ":" host then "[" ++ host ++ "]:" ++ port
  else host ++ ":" ++ port.

End net.

(** ** Errors, and the operating system

    A Go [error] is any value with a method [Error() string]; this program
    tells one error from another by that message only. *)

Record error : Type := errorString { Error : string }.

(** The sockets the system hands out, by file descriptor, and a resolved
    UDP address. *)
Record Listener : Type := TCPListener { listener_fd : Z }.
Record UDPConn : Type := mkUDPConn { conn_fd : Z }.
Record UDPAddr : Type := mkUDPAddr
  { addr_IP : net.IP; addr_Port : Z; addr_Zone : string }.

(** What a call of the standard library with a result [(x, err)] returns:
    a value, or an error. *)
Inductive result (A : Type) : Type :=
| Ok (a : A)
| Fail (err : error).

Arguments Ok {A} a.
Arguments Fail {A} err.

(** The calls [port.go] makes to the system, with the type of what each
    returns. *)
Inductive call : Type -> Type :=
| net_Listen (network address : string) : call (result Listener)
| net_ResolveUDPAddr (network address : string) : call (result UDPAddr)
| net_ListenUDP (network : string) (laddr : UDPAddr) : call (result UDPConn).

(** A program over those calls: it returns, or makes a call and goes on with
    the answer. *)
Inductive Prog (A : Type) : Type :=
| Ret (a : A)
| Do {X : Type} (c : call X) (k : X -> Prog A).

Arguments Ret {A} a.
Arguments Do {A X} c k.

Fixpoint bind {A B : Type} (p : Prog A) (f : A -> Prog B) : Prog B :=
  match p with
  | Ret a => f a
  | Do c k => Do c (fun x => bind (k x) f)
  end.

Definition perform {X : Type} (c : call X) : Prog X := Do c Ret.

Declare Scope prog_scope.
Delimit Scope prog_scope with prog.
Notation "x <- p ;; q" := (bind p (fun x => q))
  (at level 61, p at next level, right associativity) : prog_scope.

(** A call that was made, as a trace records it. *)
Inductive event : Type :=
| Called {X : Type} (c : call X).

(** A model of the system: a state, and the answer and next state of every
    call. *)
Record OS : Type := mkOS
  { os_state : Type;
    os_answer : forall X : Type, call X -> os_state -> X * os_state }.

(** Running a program against a system: its result, the state it leaves and
    the calls it made, in order. *)
Fixpoint run {A : Type} (os : OS) (p : Prog A) (st : os_state os)
  : A * os_state os * list event :=
  match p with
  | Ret a => (a, st, [])
  | Do c k =>
      let (x, st') := os_answer os _ c st in
      let '(a, st'', tr) := run os (k x) st' in
      (a, st'', Called c :: tr)
  end.

(** A system for examples: every bind succeeds, on descriptors handed out
    in order from the state, a counter. *)
Definition generous : OS :=
  mkOS Z
    (fun X c =>
       match c in call X return Z -> X * Z with
       | net_Listen _ _ => fun fd => (Ok (TCPListener fd), fd + 1)
       | net_ResolveUDPAddr _ _ => fun fd => (Ok (mkUDPAddr [] 0 ""), fd)
       | net_ListenUDP _ _ => fun fd => (Ok (mkUDPConn fd), fd + 1)
       end).

(** A system with nothing to give: every call fails. *)
Definition barren : OS :=
  mkOS unit
    (fun X c =>
       match c in call X return unit -> X * unit with
       | net_Listen _ a => fun u => (Fail (errorString ("listen " ++ a)), u)
       | net_ResolveUDPAddr _ a => fun u => (Fail (errorString ("resolve " ++ a)), u)
       | net_ListenUDP _ _ => fun u => (Fail (errorString "listen udp"), u)
       end).

(** Tables for examples: no rune above U+00FF is printable.  The examples
    quote ASCII text only, and never consult them. *)
Definition noTable : Z -> bool := fun _ => false.

Section LocalPorts.

(** The Unicode tables behind [%q], as in [strconv.IsPrint]. *)
Variable isPrintTable : Z -> bool.

(** ** Package [fmt]

    [Sprintf] for the directives [port.go] writes: a percent sign and a
    one-byte verb, with no flag, width, precision or argument index.  An
    operand is a string, or a value of a type whose underlying type is
    string; it carries the name of its type for the error texts of [fmt]. *)

Record operand : Type := Operand { op_type : string; op_value : string }.

Definition str (s : string) : operand := Operand "string" s.

(** [printArg] on a string operand: [%s] and [%v] write it as it is, [%q]
    quotes it, another verb is reported. *)
Definition printArg (a : operand) (verb : ascii) : string :=
  if Ascii.eqb verb "s" || Ascii.eqb verb "v" then op_value a
  else if Ascii.eqb verb "q" then strconv.Quote isPrintTable (op_value a)
  else "%!" ++ String verb ("(" ++ op_type a ++ "=" ++ op_value a ++ ")").

(** The operands left over when the format ends, as [%!(EXTRA ...)] lists
    them. *)
Fixpoint extra (args : list operand) : string :=
  match args with
  | [] => ""
  | [a] => op_type a ++ "=" ++ op_value a
  | a :: rest => op_type a ++ "=" ++ op_value a ++ ", " ++ extra rest
  end.

(** [doPrintf]: the format from left to right, each verb taking the next
    operand. *)
Fixpoint doPrintf (format : string) (args : list operand) : string :=
  match format with
  | EmptyString =>
      match args with
      | [] => ""
      | _ => "%!(EXTRA " ++ extra args ++ ")"
      end
  | String "%" EmptyString => "%!(NOVERB)"
  | String "%" (String verb format') =>
      if Ascii.eqb verb "%" then String "%" (doPrintf format' args)
      else
        match args with
        | [] => "%!" ++ String verb ("(MISSING)" ++ doPrintf format' [])
        | a :: args' => printArg a verb ++ doPrintf format' args'
        end
  | String c format' => String c (doPrintf format' args)
  end.

Definition fmt_Sprintf (format : string) (args : list operand) : string :=
  doPrintf format args.

Definition fmt_Errorf (format : string) (args : list operand) : error :=
  errorString (fmt_Sprintf format args).

(** ** [port.go] *)

(** IPFamily refers to a specific family if not empty, i.e. "4" or "6". *)
Definition IPFamily : Type := string.

Definition IPv4 : IPFamily := "4".
Definition IPv6 : IPFamily := "6".

Definition fam (f : IPFamily) : operand := Operand "net.IPFamily" f.

(** LocalPort represents an IP address and port pair along with a protocol
    and potentially a specific IP family.  The fields carry the prefix [lp_]:
    the field [IPFamily] would share its name with the type. *)
Record LocalPort : Type := mkLocalPort
  { lp_Description : string;
    lp_IP : string;
    lp_IPFamily : IPFamily;
    lp_Port : Z;
    lp_Protocol : string }.

(** NewLocalPort returns a LocalPort instance and ensures IPFamily and IP are
    consistent and that the given protocol is valid.  The result is Go's pair
    of a pointer to a LocalPort and an error, [None] for [nil]. *)
Definition NewLocalPort (desc ip : string) (ipFamily : IPFamily) (port : Z)
    (protocol : string) : option LocalPort * option error :=
  if negb (protocol =? "tcp")%string && negb (protocol =? "sctp")%string
     && negb (protocol =? "udp")%string
  then (None, Some (fmt_Errorf "Unsupported protocol %s" [str protocol]))
  else if negb (ipFamily =? "")%string && negb (ipFamily =? "4")%string
          && negb (ipFamily =? "6")%string
  then (None, Some (fmt_Errorf "Invalid IP family %s" [fam ipFamily]))
  else
    let checked : option error :=
      if negb (ip =? "")%string then
        match net.ParseIP ip with
        | None => Some (fmt_Errorf "invalid ip address %s" [str ip])
        | Some parsedIP =>
            let asIPv4 := net.To4 parsedIP in
            let isNil := match asIPv4 with None => true | Some _ => false end in
            if isNil && (ipFamily =? IPv4)%string
               || negb isNil && (ipFamily =? IPv6)%string
            then Some (fmt_Errorf "ip address and family mismatch %s, %s"
                         [str ip; fam ipFamily])
            else None
        end
      else None in
    match checked with
    | Some err => (None, Some err)
    | None => (Some (mkLocalPort desc ip ipFamily port protocol), None)
    end.

(** The method [String] of [*LocalPort]. *)
Definition LocalPort_String (lp : LocalPort) : string :=
  let ipPort := net.JoinHostPort (lp_IP lp) (strconv.Itoa (lp_Port lp)) in
  fmt_Sprintf "%q (%s/%s%s)"
    [str (lp_Description lp); str ipPort; str (lp_Protocol lp);
     fam (lp_IPFamily lp)].

(** Closeable closes an opened LocalPort: the interface holds a TCP listener
    or a UDP connection; the [nil] interface is [None] where one is
    returned. *)
Inductive Closeable : Type :=
| OfListener (l : Listener)
| OfUDPConn (c : UDPConn).

(** What an opener returns: Go's pair [(Closeable, error)]. *)
Definition opened : Type := option Closeable * option error.

#[local] Open Scope prog_scope.

Definition openLocalPort (lp : LocalPort) : Prog opened :=
  let network := lp_Protocol lp ++ lp_IPFamily lp in
  let hostPort := net.JoinHostPort (lp_IP lp) (strconv.Itoa (lp_Port lp)) in
  if (lp_Protocol lp =? "tcp")%string then
    r <- perform (net_Listen network hostPort) ;;
    match r with
    | Fail err => Ret (None, Some err)
    | Ok listener => Ret (Some (OfListener listener), None)
    end
  else if (lp_Protocol lp =? "udp")%string then
    r <- perform (net_ResolveUDPAddr network hostPort) ;;
    match r with
    | Fail err => Ret (None, Some err)
    | Ok addr =>
        r' <- perform (net_ListenUDP network addr) ;;
        match r' with
        | Fail err => Ret (None, Some err)
        | Ok conn => Ret (Some (OfUDPConn conn), None)
        end
    end
  else if (lp_Protocol lp =? "sctp")%string then
    (* SCTP ports are intentionally ignored, to ensure we don't cause the
       sctp kernel module to be loaded. *)
    Ret (None, None)
  else Ret (None, Some (fmt_Errorf "unknown protocol %q" [str (lp_Protocol lp)])).

(** PortOpener can open a LocalPort and allows later closing it. *)
Class PortOpener (T : Type) : Type :=
  { OpenLocalPort : T -> LocalPort -> Prog opened }.

(** listenPortOpener opens ports by calling bind() and listen(). *)
Inductive listenPortOpener : Type := mkListenPortOpener.

#[export] Instance listenPortOpener_PortOpener : PortOpener listenPortOpener :=
  { OpenLocalPort := fun _ lp => openLocalPort lp }.

(** ** The vocabulary of the specification *)

(** The protocols construction accepts, compared byte for byte. *)
Definition supported (protocol : string) : Prop :=
  protocol = "tcp" \/ protocol = "udp" \/ protocol = "sctp".

(** The family tags construction accepts. *)
Definition family_tag (f : IPFamily) : Prop :=
  f = "" \/ f = "4" \/ f = "6".

(** An address is IPv4 when [To4] gives its 4-byte form. *)
Definition isIPv4 (ip : net.IP) : Prop := net.To4 ip <> None.

(** The address contradicts the requested family. *)
Definition contradicts (ip : net.IP) (f : IPFamily) : Prop :=
  (~ isIPv4 ip /\ f = IPv4) \/ (isIPv4 ip /\ f = IPv6).

(** The address is of the requested family, or none is requested. *)
Definition family_matches (ip : net.IP) (f : IPFamily) : Prop :=
  f = "" \/ (f = IPv4 /\ isIPv4 ip) \/ (f = IPv6 /\ ~ isIPv4 ip).

(** The errors of the specification, each by the message the code gives it
    and the value the message carries. *)
Definition UnsupportedProtocol (protocol : string) (err : error) : Prop :=
  Error err = "Unsupported protocol " ++ protocol.

Definition InvalidAddressFamily (f : IPFamily) (err : error) : Prop :=
  Error err = "Invalid IP family " ++ f.

Definition InvalidAddress (ip : string) (err : error) : Prop :=
  Error err = "invalid ip address " ++ ip.

Definition AddressFamilyMismatch (ip : string) (f : IPFamily) (err : error)
  : Prop :=
  Error err = "ip address and family mismatch " ++ ip ++ ", " ++ f.

Definition UnknownProtocol (protocol : string) (err : error) : Prop :=
  Error err = "unknown protocol " ++ strconv.Quote isPrintTable protocol.

(** Construction failed with an error of the given kind: no descriptor, and
    an error that [kind] holds of. *)
Definition fails_with (kind : error -> Prop)
    (r : option LocalPort * option error) : Prop :=
  exists err, r = (None, Some err) /\ kind err.

(** A 16-byte address in [::ffff:0:0/96], and a literal in colon form that
    reads as one. *)
Definition IPv4Mapped (ip : net.IP) : Prop :=
  List.length ip = 16%nat /\ firstn 12 ip = net.v4InV6Prefix.

Definition IPv4MappedLiteral (s : string) : Prop :=
  contains_byte ":" s = true /\
  exists ip, net.ParseIP s = Some ip /\ IPv4Mapped ip.

(** Text that [%q] leaves as it is: printable ASCII with no double quote and
    no backslash. *)
Definition plain_byte (c : ascii) : bool :=
  between 0x20 (code c) 0x7E && negb (Ascii.eqb c dquote)
  && negb (Ascii.eqb c "\").

Fixpoint plain (s : string) : bool :=
  match s with
  | EmptyString => true
  | String c s' => plain_byte c && plain s'
  end.

(** [s] between double quotes. *)
Definition quoted (s : string) : string :=
  String dquote (s ++ String dquote "").

(** The check of the address against the family, as [NewLocalPort] makes it
    once protocol and family passed. *)
Definition checked (ip : string) (ipFamily : IPFamily) : option error :=
  if negb (ip =? "")%string then
    match net.ParseIP ip with
    | None => Some (errorString ("invalid ip address " ++ ip))
    | Some parsedIP =>
        match net.To4 parsedIP with
        | None =>
            if (ipFamily =? IPv4)%string
            then Some (errorString
                         ("ip address and family mismatch " ++ ip ++ ", " ++ ipFamily))
            else None
        | Some _ =>
            if (ipFamily =? IPv6)%string
            then Some (errorString
                         ("ip address and family mismatch " ++ ip ++ ", " ++ ipFamily))
            else None
        end
    end
  else None.

(** What a case of the test table looks at: the rendering of the descriptor
    constructed, and whether construction returned an error instead. *)
Definition rendered (r : option LocalPort * option error) : option string :=
  match r with
  | (Some lp, None) => Some (LocalPort_String lp)
  | _ => None
  end.

Definition refused (r : option LocalPort * option error) : bool :=
  match r with
  | (None, Some _) => true
  | _ => false
  end.

(** The network token and the address [openLocalPort] hands to the system,
    its locals [network] and [hostPort]. *)
Definition network (lp : LocalPort) : string :=
  lp_Protocol lp ++ lp_IPFamily lp.

Definition hostPort (lp : LocalPort) : string :=
  net.JoinHostPort (lp_IP lp) (strconv.Itoa (lp_Port lp)).

(** The inputs construction accepts: a supported protocol, a family tag, and
    an address that is empty or reads as an IP of the family asked for. *)
Definition acceptable (ip : string) (ipFamily : IPFamily) (protocol : string)
  : Prop :=
  supported protocol /\ family_tag ipFamily
  /\ (ip = "" \/
      exists parsedIP,
        net.ParseIP ip = Some parsedIP /\ family_matches parsedIP ipFamily).

(** A system that grants every request. *)
Definition grants (os : OS) : Prop :=
  (forall n a st, exists l st',
      os_answer os _ (net_Listen n a) st = (Ok l, st'))
  /\ (forall n a st, exists x st',
        os_answer os _ (net_ResolveUDPAddr n a) st = (Ok x, st'))
  /\ (forall n x st, exists c st',
        os_answer os _ (net_ListenUDP n x) st = (Ok c, st')).

(** ** Properties *)

(** *** The tests of [NewLocalPort] *)

Lemma append_empty (s : string) : s ++ "" = s.
Proof. induction s as [|c s IH]; simpl; [reflexivity | now rewrite IH]. Qed.

Lemma supported_test (protocol : string) :
  negb (protocol =? "tcp")%string && negb (protocol =? "sctp")%string
  && negb (protocol =? "udp")%string = false <-> supported protocol.
Proof.
  unfold supported.
  destruct (String.eqb_spec protocol "tcp"), (String.eqb_spec protocol "sctp"),
    (String.eqb_spec protocol "udp"); simpl; split; intros H; auto;
    try discriminate; destruct H as [H | [H | H]]; congruence.
Qed.

Lemma family_test (f : IPFamily) :
  negb (f =? "")%string && negb (f =? "4")%string && negb (f =? "6")%string
  = false <-> family_tag f.
Proof.
  unfold family_tag.
  destruct (String.eqb_spec f ""), (String.eqb_spec f "4"),
    (String.eqb_spec f "6"); simpl; split; intros H; auto;
    try discriminate; destruct H as [H | [H | H]]; congruence.
Qed.

Lemma not_false_true (b : bool) (P : Prop) :
  (b = false <-> P) -> ~ P -> b = true.
Proof. destruct b; intros [H _] HP; [reflexivity | now elim HP; apply H]. Qed.

(** The messages, with their operands in place. *)
Lemma Errorf_unsupported (protocol : string) :
  fmt_Errorf "Unsupported protocol %s" [str protocol]
  = errorString ("Unsupported protocol " ++ protocol).
Proof. unfold fmt_Errorf, fmt_Sprintf; simpl. now rewrite append_empty. Qed.

Lemma Errorf_family (f : IPFamily) :
  fmt_Errorf "Invalid IP family %s" [fam f]
  = errorString ("Invalid IP family " ++ f).
Proof. unfold fmt_Errorf, fmt_Sprintf; simpl. now rewrite append_empty. Qed.

Lemma Errorf_address (ip : string) :
  fmt_Errorf "invalid ip address %s" [str ip]
  = errorString ("invalid ip address " ++ ip).
Proof. unfold fmt_Errorf, fmt_Sprintf; simpl. now rewrite append_empty. Qed.

Lemma Errorf_mismatch (ip : string) (f : IPFamily) :
  fmt_Errorf "ip address and family mismatch %s, %s" [str ip; fam f]
  = errorString ("ip address and family mismatch " ++ ip ++ ", " ++ f).
Proof. unfold fmt_Errorf, fmt_Sprintf; simpl. now rewrite append_empty. Qed.

Lemma Errorf_unknown (protocol : string) :
  fmt_Errorf "unknown protocol %q" [str protocol]
  = errorString ("unknown protocol " ++ strconv.Quote isPrintTable protocol).
Proof. unfold fmt_Errorf, fmt_Sprintf; simpl. now rewrite append_empty. Qed.

Lemma NewLocalPort_unsupported desc ip ipFamily port protocol :
  ~ supported protocol ->
  NewLocalPort desc ip ipFamily port protocol
  = (None, Some (errorString ("Unsupported protocol " ++ protocol))).
Proof.
  intros H. unfold NewLocalPort.
  rewrite (not_false_true _ _ (supported_test protocol) H).
  now rewrite Errorf_unsupported.
Qed.

Lemma NewLocalPort_bad_family desc ip ipFamily port protocol :
  supported protocol -> ~ family_tag ipFamily ->
  NewLocalPort desc ip ipFamily port protocol
  = (None, Some (errorString ("Invalid IP family " ++ ipFamily))).
Proof.
  intros Hp Hf. unfold NewLocalPort.
  apply supported_test in Hp. rewrite Hp.
  rewrite (not_false_true _ _ (family_test ipFamily) Hf).
  now rewrite Errorf_family.
Qed.

Lemma NewLocalPort_checked desc ip ipFamily port protocol :
  supported protocol -> family_tag ipFamily ->
  NewLocalPort desc ip ipFamily port protocol
  = match checked ip ipFamily with
    | Some err => (None, Some err)
    | None => (Some (mkLocalPort desc ip ipFamily port protocol), None)
    end.
Proof.
  intros Hp Hf. unfold NewLocalPort, checked.
  apply supported_test in Hp. rewrite Hp.
  apply family_test in Hf. rewrite Hf.
  rewrite Errorf_address, Errorf_mismatch.
  destruct (negb (ip =? "")%string); [| reflexivity].
  destruct (net.ParseIP ip) as [parsedIP |]; [| reflexivity].
  destruct (net.To4 parsedIP); simpl;
    destruct (ipFamily =? IPv4)%string, (ipFamily =? IPv6)%string; reflexivity.
Qed.

Lemma supported_dec (protocol : string) :
  {supported protocol} + {~ supported protocol}.
Proof.
  destruct (negb (protocol =? "tcp")%string && negb (protocol =? "sctp")%string
            && negb (protocol =? "udp")%string) eqn:E.
  - right. intros H. apply supported_test in H. congruence.
  - left. now apply supported_test.
Qed.

Lemma family_tag_dec (f : IPFamily) : {family_tag f} + {~ family_tag f}.
Proof.
  destruct (negb (f =? "")%string && negb (f =? "4")%string
            && negb (f =? "6")%string) eqn:E.
  - right. intros H. apply family_test in H. congruence.
  - left. now apply family_test.
Qed.

Lemma nonempty_test (ip : string) : ip <> "" -> negb (ip =? "")%string = true.
Proof. intros H. now destruct (String.eqb_spec ip ""). Qed.

(** What [checked] answers, case by case. *)
Lemma checked_empty (f : IPFamily) : checked "" f = None.
Proof. reflexivity. Qed.

Lemma checked_unparsed (ip : string) (f : IPFamily) :
  ip <> "" -> net.ParseIP ip = None ->
  checked ip f = Some (errorString ("invalid ip address " ++ ip)).
Proof.
  intros Hne Hp. unfold checked. now rewrite (nonempty_test _ Hne), Hp.
Qed.

Lemma checked_contradicts (ip : string) (f : IPFamily) (parsedIP : net.IP) :
  ip <> "" -> net.ParseIP ip = Some parsedIP -> contradicts parsedIP f ->
  checked ip f
  = Some (errorString ("ip address and family mismatch " ++ ip ++ ", " ++ f)).
Proof.
  intros Hne Hp Hc. unfold checked. rewrite (nonempty_test _ Hne), Hp.
  unfold contradicts, isIPv4 in Hc.
  destruct (net.To4 parsedIP) as [ip4 |], Hc as [[H4 ->] | [H4 ->]];
    try reflexivity.
  - elim H4. discriminate.
  - now elim H4.
Qed.

Lemma checked_matches (ip : string) (f : IPFamily) (parsedIP : net.IP) :
  net.ParseIP ip = Some parsedIP -> family_matches parsedIP f ->
  checked ip f = None.
Proof.
  intros Hp Hm. unfold checked. rewrite Hp.
  destruct (negb (ip =? "")%string); [| reflexivity].
  unfold family_matches, isIPv4 in Hm.
  destruct (net.To4 parsedIP) as [ip4 |],
    Hm as [-> | [[-> H4] | [-> H4]]]; try reflexivity.
  - elim H4. discriminate.
  - now elim H4.
Qed.

(** *** Construction *)

(** C1.  When the address is not empty and parses, and the parsed address is
    not IPv4 while the family is "4", or is IPv4 while the family is "6",
    construction returns no descriptor; and when the protocol is one of the
    three supported ones, it fails with the AddressFamilyMismatch error that
    carries the address and the family. *)
Theorem NewLocalPort_family_mismatch desc ip ipFamily port protocol parsedIP :
  ip <> "" -> net.ParseIP ip = Some parsedIP -> contradicts parsedIP ipFamily ->
  fst (NewLocalPort desc ip ipFamily port protocol) = None /\
  (supported protocol ->
   fails_with (AddressFamilyMismatch ip ipFamily)
     (NewLocalPort desc ip ipFamily port protocol)).
Proof.
  intros Hne Hp Hc.
  assert (Hf : family_tag ipFamily).
  { destruct Hc as [[_ ->] | [_ ->]]; unfold family_tag, IPv4, IPv6; auto. }
  assert (Hs : supported protocol ->
               NewLocalPort desc ip ipFamily port protocol
               = (None, Some (errorString
                    ("ip address and family mismatch " ++ ip ++ ", " ++ ipFamily)))).
  { intros Hs. rewrite (NewLocalPort_checked _ _ _ _ _ Hs Hf).
    now rewrite (checked_contradicts _ _ _ Hne Hp Hc). }
  split.
  - destruct (supported_dec protocol) as [Hsup | Hsup].
    + now rewrite (Hs Hsup).
    + now rewrite (NewLocalPort_unsupported _ _ _ _ _ Hsup).
  - intros Hsup. eexists. split; [apply (Hs Hsup) | reflexivity].
Qed.

(** C3.  A protocol that is none of "tcp", "udp" and "sctp", byte for byte,
    makes construction fail with the UnsupportedProtocol error that carries
    it, whatever the description, address, family and port. *)
Theorem NewLocalPort_unsupported_protocol desc ip ipFamily port protocol :
  ~ supported protocol ->
  fails_with (UnsupportedProtocol protocol)
    (NewLocalPort desc ip ipFamily port protocol).
Proof.
  intros H. eexists. split; [now apply NewLocalPort_unsupported | reflexivity].
Qed.

(** C4, amended.  A family tag that is none of "", "4" and "6" makes
    construction fail whatever the other fields: with the
    InvalidAddressFamily error that carries the tag when the protocol is one
    of the three supported ones, and with the UnsupportedProtocol error when
    it is not, the protocol being tested first. *)
Theorem NewLocalPort_invalid_family desc ip ipFamily port protocol :
  ~ family_tag ipFamily ->
  (exists err,
     NewLocalPort desc ip ipFamily port protocol = (None, Some err)) /\
  (supported protocol ->
   fails_with (InvalidAddressFamily ipFamily)
     (NewLocalPort desc ip ipFamily port protocol)) /\
  (~ supported protocol ->
   fails_with (UnsupportedProtocol protocol)
     (NewLocalPort desc ip ipFamily port protocol)).
Proof.
  intros Hf. split; [| split].
  - destruct (supported_dec protocol) as [Hs | Hs].
    + rewrite (NewLocalPort_bad_family _ _ _ _ _ Hs Hf). now eexists.
    + rewrite (NewLocalPort_unsupported _ _ _ _ _ Hs). now eexists.
  - intros Hs. eexists.
    split; [now apply NewLocalPort_bad_family | reflexivity].
  - intros Hs. eexists.
    split; [now apply NewLocalPort_unsupported | reflexivity].
Qed.

Lemma checked_cases (ip : string) (f : IPFamily) :
  checked ip f = None
  \/ (checked ip f = Some (errorString ("invalid ip address " ++ ip))
      /\ ip <> "" /\ net.ParseIP ip = None)
  \/ checked ip f
     = Some (errorString ("ip address and family mismatch " ++ ip ++ ", " ++ f)).
Proof.
  unfold checked. destruct (String.eqb_spec ip "") as [-> | Hne]; simpl; auto.
  destruct (net.ParseIP ip) as [parsedIP |]; auto.
  destruct (net.To4 parsedIP), (f =? IPv4)%string, (f =? IPv6)%string; auto.
Qed.

(** C5.  Construction fails with an InvalidAddress error exactly when the
    protocol and the family tag are valid and the address is not empty and
    does not parse as an IP literal; the error then carries the address. *)
Theorem NewLocalPort_invalid_address_iff desc ip ipFamily port protocol :
  (fails_with (fun err => exists a, InvalidAddress a err)
     (NewLocalPort desc ip ipFamily port protocol)
   <-> supported protocol /\ family_tag ipFamily /\ ip <> ""
       /\ net.ParseIP ip = None)
  /\ (supported protocol /\ family_tag ipFamily /\ ip <> ""
      /\ net.ParseIP ip = None ->
      fails_with (InvalidAddress ip)
        (NewLocalPort desc ip ipFamily port protocol)).
Proof.
  assert (Hback : supported protocol /\ family_tag ipFamily /\ ip <> ""
                  /\ net.ParseIP ip = None ->
                  fails_with (InvalidAddress ip)
                    (NewLocalPort desc ip ipFamily port protocol)).
  { intros (Hs & Hf & Hne & Hp).
    rewrite (NewLocalPort_checked _ _ _ _ _ Hs Hf).
    rewrite (checked_unparsed _ _ Hne Hp).
    eexists. split; reflexivity. }
  split; [split |]; auto.
  - intros (err & Hr & a & Ha). unfold InvalidAddress in Ha.
    destruct (supported_dec protocol) as [Hs | Hs].
    2:{ rewrite (NewLocalPort_unsupported _ _ _ _ _ Hs) in Hr.
        injection Hr as <-. simpl in Ha. discriminate. }
    destruct (family_tag_dec ipFamily) as [Hf | Hf].
    2:{ rewrite (NewLocalPort_bad_family _ _ _ _ _ Hs Hf) in Hr.
        injection Hr as <-. simpl in Ha. discriminate. }
    rewrite (NewLocalPort_checked _ _ _ _ _ Hs Hf) in Hr.
    destruct (checked_cases ip ipFamily) as [E | [(E & Hne & Hp) | E]];
      rewrite E in Hr.
    + discriminate.
    + auto.
    + injection Hr as <-. simpl in Ha. discriminate.
  - intros H. destruct (Hback H) as (err & Hr & Ha).
    exists err. split; [assumption | now exists ip].
Qed.

(** C6.  With a protocol among "tcp", "udp" and "sctp", a family tag among
    "", "4" and "6", and an address that is empty or parses as an IP of the
    requested family (any IP when no family is requested), construction
    succeeds, with no error, and the descriptor holds the five inputs as they
    were given.  [NewLocalPort] is a function outside [Prog]: it makes no
    call to the system. *)
Theorem NewLocalPort_succeeds desc ip ipFamily port protocol :
  supported protocol -> family_tag ipFamily ->
  (ip = "" \/
   exists parsedIP,
     net.ParseIP ip = Some parsedIP /\ family_matches parsedIP ipFamily) ->
  exists lp,
    NewLocalPort desc ip ipFamily port protocol = (Some lp, None)
    /\ lp_Description lp = desc /\ lp_IP lp = ip /\ lp_IPFamily lp = ipFamily
    /\ lp_Port lp = port /\ lp_Protocol lp = protocol.
Proof.
  intros Hs Hf Hip. exists (mkLocalPort desc ip ipFamily port protocol).
  rewrite (NewLocalPort_checked _ _ _ _ _ Hs Hf).
  assert (E : checked ip ipFamily = None).
  { destruct Hip as [-> | (parsedIP & Hp & Hm)];
      [apply checked_empty | now apply (checked_matches _ _ parsedIP)]. }
  rewrite E. simpl. repeat split; reflexivity.
Qed.

(** C9.  Construction does not look at the port: for any two integers given
    as port, zero, negative or above 65535, with the other inputs the same,
    the error returned is the same, a descriptor is returned for the one
    exactly when one is for the other, and a descriptor returned holds the
    port it was given. *)
Theorem NewLocalPort_port_independent desc ip ipFamily protocol port port' :
  snd (NewLocalPort desc ip ipFamily port protocol)
  = snd (NewLocalPort desc ip ipFamily port' protocol)
  /\ (fst (NewLocalPort desc ip ipFamily port protocol) = None
      <-> fst (NewLocalPort desc ip ipFamily port' protocol) = None)
  /\ (forall lp,
        fst (NewLocalPort desc ip ipFamily port protocol) = Some lp ->
        lp = mkLocalPort desc ip ipFamily port protocol
        /\ lp_Port lp = port
        /\ fst (NewLocalPort desc ip ipFamily port' protocol)
           = Some (mkLocalPort desc ip ipFamily port' protocol)).
Proof.
  destruct (supported_dec protocol) as [Hs | Hs].
  2:{ rewrite !(NewLocalPort_unsupported _ _ _ _ _ Hs). simpl.
      repeat split; auto; discriminate. }
  destruct (family_tag_dec ipFamily) as [Hf | Hf].
  2:{ rewrite !(NewLocalPort_bad_family _ _ _ _ _ Hs Hf). simpl.
      repeat split; auto; discriminate. }
  rewrite !(NewLocalPort_checked _ _ _ _ _ Hs Hf).
  destruct (checked ip ipFamily); simpl.
  - repeat split; auto; discriminate.
  - repeat split; auto; try discriminate; now injection H as <-.
Qed.

(** *** Opening *)

Lemma unsupported_tests (protocol : string) :
  ~ supported protocol ->
  (protocol =? "tcp")%string = false /\ (protocol =? "udp")%string = false
  /\ (protocol =? "sctp")%string = false.
Proof.
  unfold supported. intros H.
  destruct (String.eqb_spec protocol "tcp"), (String.eqb_spec protocol "udp"),
    (String.eqb_spec protocol "sctp"); tauto.
Qed.

(** C2.  Opening a descriptor whose protocol is "sctp" returns at once, with
    no error and no handle, whatever its address and port: run against any
    system, from any state, it makes no call (no bind, no listen, no
    resolve) and leaves the state as it was, so that nothing is held and
    nothing is left to release. *)
Theorem openLocalPort_sctp (lp : LocalPort) :
  lp_Protocol lp = "sctp" ->
  openLocalPort lp = Ret (None, None)
  /\ forall (os : OS) (st : os_state os),
       run os (openLocalPort lp) st = ((None, None), st, []).
Proof.
  intros H. assert (E : openLocalPort lp = Ret (None, None)).
  { unfold openLocalPort. now rewrite H. }
  split; [assumption |]. intros os st. now rewrite E.
Qed.

(** C8.  Opening a descriptor whose protocol is none of "tcp", "udp" and
    "sctp" returns no handle and the UnknownProtocol error, which names the
    protocol, quoted; it makes no call to the system. *)
Theorem openLocalPort_unknown_protocol (lp : LocalPort) :
  ~ supported (lp_Protocol lp) ->
  exists err,
    UnknownProtocol (lp_Protocol lp) err
    /\ openLocalPort lp = Ret (None, Some err)
    /\ forall (os : OS) (st : os_state os),
         run os (openLocalPort lp) st = ((None, Some err), st, []).
Proof.
  intros H. destruct (unsupported_tests _ H) as (Et & Eu & Es).
  exists (errorString
            ("unknown protocol " ++ strconv.Quote isPrintTable (lp_Protocol lp))).
  assert (E : openLocalPort lp
              = Ret (None, Some (errorString
                  ("unknown protocol "
                   ++ strconv.Quote isPrintTable (lp_Protocol lp))))).
  { unfold openLocalPort. now rewrite Et, Eu, Es, Errorf_unknown. }
  split; [reflexivity | split; [assumption |]].
  intros os st. now rewrite E.
Qed.

(** *** Rendering *)

(** A plain byte goes through the loop of [Quote] as it is. *)
Lemma quoteFrom_plain_byte (c : ascii) (s : string) :
  plain_byte c = true ->
  strconv.quoteFrom isPrintTable 0 (String c s)
  = String c (strconv.quoteFrom isPrintTable 0 s).
Proof.
  destruct c as [[] [] [] [] [] [] [] []]; intros H;
    solve [ discriminate H | reflexivity ].
Qed.

Lemma quoteFrom_plain (s : string) :
  plain s = true -> strconv.quoteFrom isPrintTable 0 s = s.
Proof.
  induction s as [| c s IH]; [reflexivity |].
  simpl plain. intros H. apply andb_prop in H as [Hc Hs].
  rewrite (quoteFrom_plain_byte _ _ Hc). now rewrite (IH Hs).
Qed.

Lemma Quote_plain (s : string) :
  plain s = true -> strconv.Quote isPrintTable s = quoted s.
Proof.
  intros H. unfold strconv.Quote, quoted. now rewrite (quoteFrom_plain _ H).
Qed.

(** What [parseIPv4] reads is an IPv4 address, and [ParseIP] gives another
    kind of address only for a string with a colon in it. *)
Lemma To4_IPv4 (a b c d : Z) : net.To4 (net.IPv4 a b c d) = Some [a; b; c; d].
Proof. reflexivity. Qed.

Lemma parseIPv4_isIPv4 (s : string) (ip : net.IP) :
  net.parseIPv4 s = Some ip -> isIPv4 ip.
Proof.
  unfold net.parseIPv4, isIPv4.
  destruct (net.parseIPv4_fields 4 0 s []) as [[p rest] |]; [| discriminate].
  destruct p as [| a [| b [| c [| d [| e p]]]]]; try discriminate.
  destruct rest; [| discriminate].
  intros [= <-]. now rewrite To4_IPv4.
Qed.

Lemma ParseIP_scan_colon (rest whole : string) (ip : net.IP) :
  net.ParseIP_scan rest whole = Some ip -> ~ isIPv4 ip ->
  contains_byte ":" rest = true.
Proof.
  induction rest as [| c rest IH]; simpl; [discriminate |].
  intros Hp Hn.
  destruct (Ascii.eqb c ".") eqn:Ed.
  - elim Hn. now apply (parseIPv4_isIPv4 whole).
  - destruct (Ascii.eqb c ":"); [reflexivity | now apply IH].
Qed.

Lemma ParseIP_colon (s : string) (ip : net.IP) :
  net.ParseIP s = Some ip -> ~ isIPv4 ip -> contains_byte ":" s = true.
Proof. apply ParseIP_scan_colon. Qed.

(** C7.  [String] renders a descriptor as the description quoted, a space,
    and in parentheses the address and port joined as host and port, a
    slash, the protocol and the family.  The quoting is Go's [%q], which puts
    plain text between double quotes as it is.  The joining puts an address
    that is not IPv4 in brackets and an empty one before a bare colon and
    port.  The family adds nothing when none is set.  The four examples of the
    specification render to their strings, byte for byte. *)
Theorem LocalPort_String_render :
  (forall lp,
     LocalPort_String lp
     = strconv.Quote isPrintTable (lp_Description lp) ++ " ("
       ++ net.JoinHostPort (lp_IP lp) (strconv.Itoa (lp_Port lp))
       ++ "/" ++ lp_Protocol lp ++ lp_IPFamily lp ++ ")")
  /\ (forall desc, plain desc = true ->
      strconv.Quote isPrintTable desc = quoted desc)
  /\ (forall port, net.JoinHostPort "" port = ":" ++ port)
  /\ (forall host port ip,
        net.ParseIP host = Some ip -> ~ isIPv4 ip ->
        net.JoinHostPort host port = "[" ++ host ++ "]:" ++ port)
  /\ (forall host port,
        contains_byte ":" host = false ->
        net.JoinHostPort host port = host ++ ":" ++ port)
  /\ (forall lp,
        lp_IPFamily lp = "" ->
        LocalPort_String lp
        = strconv.Quote isPrintTable (lp_Description lp) ++ " ("
          ++ net.JoinHostPort (lp_IP lp) (strconv.Itoa (lp_Port lp))
          ++ "/" ++ lp_Protocol lp ++ ")")
  /\ LocalPort_String (mkLocalPort "IPv4 UDP" "1.2.3.4" "" 9999 "udp")
     = quoted "IPv4 UDP" ++ " (1.2.3.4:9999/udp)"
  /\ LocalPort_String (mkLocalPort "IPv6 TCP" "2001:db8::1" "" 80 "tcp")
     = quoted "IPv6 TCP" ++ " ([2001:db8::1]:80/tcp)"
  /\ LocalPort_String
       (mkLocalPort "IPv4 TCP, all addresses" "" "4" 1053 "tcp")
     = quoted "IPv4 TCP, all addresses" ++ " (:1053/tcp4)"
  /\ LocalPort_String
       (mkLocalPort "No ip family TCP, all addresses" "" "" 80 "tcp")
     = quoted "No ip family TCP, all addresses" ++ " (:80/tcp)".
Proof.
  assert (shape : forall lp,
     LocalPort_String lp
     = strconv.Quote isPrintTable (lp_Description lp) ++ " ("
       ++ net.JoinHostPort (lp_IP lp) (strconv.Itoa (lp_Port lp))
       ++ "/" ++ lp_Protocol lp ++ lp_IPFamily lp ++ ")") by reflexivity.
  split; [exact shape |].
  split; [exact Quote_plain |].
  split; [reflexivity |].
  split.
  { intros host port ip Hp Hn. unfold net.JoinHostPort.
    now rewrite (ParseIP_colon _ _ Hp Hn). }
  split.
  { intros host port H. unfold net.JoinHostPort. now rewrite H. }
  split.
  { intros lp H. rewrite shape, H. reflexivity. }
  repeat split; reflexivity.
Qed.

(** *** IPv4-mapped addresses *)

Lemma IPv4Mapped_isIPv4 (ip : net.IP) : IPv4Mapped ip -> isIPv4 ip.
Proof.
  intros [Hlen Hpre]. unfold isIPv4.
  do 16 (destruct ip as [| ? ip]; [discriminate Hlen |]).
  destruct ip; [| discriminate Hlen].
  injection Hpre as -> -> -> -> -> -> -> -> -> -> -> ->.
  discriminate.
Qed.

Lemma contains_nonempty (c : ascii) (s : string) :
  contains_byte c s = true -> s <> "".
Proof. now destruct s. Qed.

(** C10.  A literal in colon form that reads as an IPv4-mapped address, such
    as "::ffff:1.2.3.4", counts as IPv4: with the family "6" construction
    fails with the AddressFamilyMismatch error, and with the family "4" or
    with none it succeeds (the protocol being one of the supported ones). *)
Theorem NewLocalPort_IPv4_mapped desc ip port protocol :
  supported protocol -> IPv4MappedLiteral ip ->
  fails_with (AddressFamilyMismatch ip IPv6)
    (NewLocalPort desc ip IPv6 port protocol)
  /\ NewLocalPort desc ip IPv4 port protocol
     = (Some (mkLocalPort desc ip IPv4 port protocol), None)
  /\ NewLocalPort desc ip "" port protocol
     = (Some (mkLocalPort desc ip "" port protocol), None).
Proof.
  intros Hs (Hc & parsedIP & Hp & Hm).
  pose proof (IPv4Mapped_isIPv4 _ Hm) as H4.
  pose proof (contains_nonempty _ _ Hc) as Hne.
  assert (F4 : family_tag IPv4) by (unfold family_tag, IPv4; auto).
  assert (F6 : family_tag IPv6) by (unfold family_tag, IPv6; auto).
  assert (F0 : family_tag "") by (unfold family_tag; auto).
  rewrite (NewLocalPort_checked _ _ _ _ _ Hs F6),
    (NewLocalPort_checked _ _ _ _ _ Hs F4),
    (NewLocalPort_checked _ _ _ _ _ Hs F0).
  rewrite (checked_contradicts ip IPv6 parsedIP Hne Hp).
  2:{ right. now split. }
  rewrite (checked_matches ip IPv4 parsedIP Hp).
  2:{ right. left. now split. }
  rewrite (checked_matches ip "" parsedIP Hp).
  2:{ now left. }
  split; [| split; reflexivity].
  eexists. split; reflexivity.
Qed.

(** *** The table of [TestLocalPortString]

    The thirteen cases of [port_test.go]: the eight that construct render to
    the expected string, the five others return an error and no descriptor. *)

Example TestLocalPortString :
  rendered (NewLocalPort "IPv4 UDP" "1.2.3.4" "" 9999 "udp")
  = Some (quoted "IPv4 UDP" ++ " (1.2.3.4:9999/udp)")
  /\ rendered (NewLocalPort "IPv4 TCP" "5.6.7.8" "" 1053 "tcp")
     = Some (quoted "IPv4 TCP" ++ " (5.6.7.8:1053/tcp)")
  /\ rendered (NewLocalPort "IPv6 TCP" "2001:db8::1" "" 80 "tcp")
     = Some (quoted "IPv6 TCP" ++ " ([2001:db8::1]:80/tcp)")
  /\ rendered (NewLocalPort "IPv4 SCTP" "9.10.11.12" "" 7777 "sctp")
     = Some (quoted "IPv4 SCTP" ++ " (9.10.11.12:7777/sctp)")
  /\ rendered (NewLocalPort "IPv6 SCTP" "2001:db8::2" "" 80 "sctp")
     = Some (quoted "IPv6 SCTP" ++ " ([2001:db8::2]:80/sctp)")
  /\ rendered (NewLocalPort "IPv4 TCP, all addresses" "" IPv4 1053 "tcp")
     = Some (quoted "IPv4 TCP, all addresses" ++ " (:1053/tcp4)")
  /\ rendered (NewLocalPort "IPv6 TCP, all addresses" "" IPv6 80 "tcp")
     = Some (quoted "IPv6 TCP, all addresses" ++ " (:80/tcp6)")
  /\ rendered (NewLocalPort "No ip family TCP, all addresses" "" "" 80 "tcp")
     = Some (quoted "No ip family TCP, all addresses" ++ " (:80/tcp)")
  /\ refused (NewLocalPort "IP family mismatch" "2001:db8::2" IPv4 80 "sctp")
     = true
  /\ refused (NewLocalPort "IP family mismatch" "1.2.3.4" IPv6 80 "sctp")
     = true
  /\ refused (NewLocalPort "Unsupported protocol" "2001:db8::2" "" 80 "http")
     = true
  /\ refused (NewLocalPort "Invalid IP" "300" "" 80 "tcp") = true
  /\ refused (NewLocalPort "Invalid ip family" "" "5" 80 "tcp") = true.
Proof. repeat split; reflexivity. Qed.

(** ** Further properties of [port.go] *)

(** *** What [ParseIP] returns *)

Lemma ParseIP_scan_none (rest whole : string) :
  contains_byte "." rest = false -> contains_byte ":" rest = false ->
  net.ParseIP_scan rest whole = None.
Proof.
  induction rest as [| c rest IH]; simpl; [reflexivity |].
  intros Hd Hc. apply orb_false_elim in Hd as [Hd1 Hd2].
  apply orb_false_elim in Hc as [Hc1 Hc2].
  rewrite Hd1, Hc1. now apply IH.
Qed.

Lemma set_nat_length (ip : net.IP) (i : nat) (v : Z) :
  List.length (net.set_nat ip i v) = List.length ip.
Proof.
  revert i. induction ip as [| h t IH]; intros [| i]; simpl; auto.
Qed.

Lemma set_length (ip : net.IP) (i v : Z) :
  List.length (net.set ip i v) = List.length ip.
Proof. apply set_nat_length. Qed.

Lemma downto_length (count : nat) (lo : Z) (body : Z -> net.IP -> net.IP) :
  (forall j ip, List.length (body j ip) = List.length ip) ->
  forall ip, List.length (net.downto count lo body ip) = List.length ip.
Proof.
  intros Hb. induction count as [| k IH]; intros ip; simpl; [reflexivity |].
  now rewrite IH, Hb.
Qed.

Lemma parseIPv6_turn_length (st : net.v6state) :
  match net.parseIPv6_turn st with
  | inl None => True
  | inl (Some st') | inr st' =>
      List.length (net.v6_ip st') = List.length (net.v6_ip st)
  end.
Proof.
  destruct st as [ip ellipsis i s]. unfold net.parseIPv6_turn.
  destruct (net.xtoi s) as [[n c] ok].
  destruct (negb ok || (0xFFFF <? n)); [exact I |].
  assert (Hword : forall rest : string,
    match
      match rest with
      | EmptyString =>
          inl (Some (net.V6 (net.set (net.set ip i (net.byte (Z.shiftr n 8)))
                               (i + 1) (net.byte n)) ellipsis (i + 2) rest))
      | String c0 EmptyString => inl None
      | String c0 (String c1 s2 as s1) =>
          if negb (Ascii.eqb c0 ":") then inl None
          else if Ascii.eqb c1 ":" then
            if 0 <=? ellipsis then inl None
            else
              match s2 with
              | EmptyString =>
                  inl (Some (net.V6 (net.set (net.set ip i (net.byte (Z.shiftr n 8)))
                                       (i + 1) (net.byte n)) (i + 2) (i + 2) s2))
              | _ =>
                  inr (net.V6 (net.set (net.set ip i (net.byte (Z.shiftr n 8)))
                                 (i + 1) (net.byte n)) (i + 2) (i + 2) s2)
              end
          else
            inr (net.V6 (net.set (net.set ip i (net.byte (Z.shiftr n 8)))
                           (i + 1) (net.byte n)) ellipsis (i + 2) s1)
      end
    with
    | inl None => True
    | inl (Some st') | inr st' => List.length (net.v6_ip st') = List.length ip
    end).
  { intros rest. destruct rest as [| c0 [| c1 s2]]; simpl;
      rewrite ?set_length; auto.
    destruct (negb (Ascii.eqb c0 ":")); [exact I |].
    destruct (Ascii.eqb c1 ":"); simpl; rewrite ?set_length; auto.
    destruct (0 <=? ellipsis); [exact I |].
    destruct s2; simpl; now rewrite !set_length. }
  destruct (drop c s) as [| d rest] eqn:Ed; [apply (Hword EmptyString) |].
  destruct (Ascii.eqb_spec d ".") as [-> | Hd].
  - destruct ((ellipsis <? 0) && negb (i =? net.IPv6len - net.IPv4len));
      [exact I |].
    destruct (net.IPv6len <? i + net.IPv4len); [exact I |].
    destruct (net.parseIPv4 s); [| exact I].
    simpl. now rewrite !set_length.
  - pose proof (Hword (String d rest)) as H.
    destruct d as [[] [] [] [] [] [] [] []]; try exact H.
    now elim Hd.
Qed.

Lemma parseIPv6_loop_length (turns : nat) (st st' : net.v6state) :
  net.parseIPv6_loop turns st = Some st' ->
  List.length (net.v6_ip st') = List.length (net.v6_ip st).
Proof.
  revert st. induction turns as [| k IH]; intros st; simpl.
  - now intros [= <-].
  - destruct (net.v6_i st <? net.IPv6len); [| now intros [= <-]].
    pose proof (parseIPv6_turn_length st) as Ht.
    destruct (net.parseIPv6_turn st) as [[st1 |] | st1].
    + intros [= <-]. exact Ht.
    + discriminate.
    + intros H. rewrite (IH _ H). exact Ht.
Qed.

Lemma parseIPv6_length (s : string) (ip : net.IP) :
  net.parseIPv6 s = Some ip -> List.length ip = 16%nat.
Proof.
  unfold net.parseIPv6.
  set (start := match s with
                | String ":" (String ":" s') =>
                    (0, s', match s' with EmptyString => true | _ => false end)
                | _ => (-1, s, false)
                end).
  destruct start as [[ellipsis s0] only].
  destruct only; [now intros [= <-] |].
  destruct (net.parseIPv6_loop 8
              (net.V6 (repeat 0 (Z.to_nat net.IPv6len)) ellipsis 0 s0))
    as [[ip1 e1 i1 s1] |] eqn:El; [| discriminate].
  apply parseIPv6_loop_length in El. simpl in El.
  destruct s1; [| discriminate].
  destruct (i1 <? net.IPv6len).
  - destruct (e1 <? 0); [discriminate |]. intros [= <-].
    rewrite !downto_length; auto; intros; apply set_length.
  - destruct (0 <=? e1); [discriminate |]. now intros [= <-].
Qed.

Lemma parseIPv4_length (s : string) (ip : net.IP) :
  net.parseIPv4 s = Some ip -> List.length ip = 16%nat.
Proof.
  unfold net.parseIPv4.
  destruct (net.parseIPv4_fields 4 0 s []) as [[p rest] |]; [| discriminate].
  destruct p as [| a [| b [| c [| d [| e p]]]]]; try discriminate.
  destruct rest; [| discriminate]. now intros [= <-].
Qed.

Lemma ParseIP_scan_length (rest whole : string) (ip : net.IP) :
  net.ParseIP_scan rest whole = Some ip -> List.length ip = 16%nat.
Proof.
  induction rest as [| c rest IH]; simpl; [discriminate |].
  destruct (Ascii.eqb c "."); [apply parseIPv4_length |].
  destruct (Ascii.eqb c ":"); [apply parseIPv6_length | exact IH].
Qed.

Lemma ParseIP_length (s : string) (ip : net.IP) :
  net.ParseIP s = Some ip -> List.length ip = 16%nat.
Proof. apply ParseIP_scan_length. Qed.

(** Of a 16-byte address, [To4] gives the 4-byte form exactly when it lies
    in [::ffff:0:0/96]. *)
Lemma isIPv4_IPv4Mapped (ip : net.IP) :
  List.length ip = 16%nat -> isIPv4 ip -> IPv4Mapped ip.
Proof.
  intros Hlen H4. split; [exact Hlen |]. unfold isIPv4 in H4.
  destruct ip as
    [| b0 [| b1 [| b2 [| b3 [| b4 [| b5 [| b6 [| b7 [| b8 [| b9 [| b10 [| b11 [| b12 [| b13 [| b14 [| b15 [| b16 ip]]]]]]]]]]]]]]]]];
    try discriminate Hlen.
  unfold net.To4 in H4.
  change (net.get _ 10) with b10 in H4. change (net.get _ 11) with b11 in H4.
  cbn -[Z.eqb] in H4.
  repeat match type of H4 with
         | context [(0 =? ?x)] =>
             destruct (Z.eqb_spec 0 x) as [<- |]; cbn -[Z.eqb] in H4;
             [| now elim H4]
         | context [(?x =? 255)] =>
             destruct (Z.eqb_spec x 255) as [-> |]; cbn -[Z.eqb] in H4;
             [| now elim H4]
         end.
  reflexivity.
Qed.

Lemma ParseIP_isIPv4_iff (s : string) (ip : net.IP) :
  net.ParseIP s = Some ip -> (isIPv4 ip <-> IPv4Mapped ip).
Proof.
  intros Hp. split; [| apply IPv4Mapped_isIPv4].
  apply isIPv4_IPv4Mapped. exact (ParseIP_length _ _ Hp).
Qed.

Lemma isIPv4_dec (ip : net.IP) : {isIPv4 ip} + {~ isIPv4 ip}.
Proof.
  unfold isIPv4. destruct (net.To4 ip); [left; discriminate | right; tauto].
Qed.

(** *** Construction, in full *)

Lemma family_matches_not_contradicts (ip : net.IP) (f : IPFamily) :
  family_matches ip f -> ~ contradicts ip f.
Proof.
  unfold family_matches, contradicts, IPv4, IPv6.
  intros [-> | [[-> H] | [-> H]]] [[H' E] | [H' E]];
    try discriminate E; tauto.
Qed.

Lemma not_contradicts_family_matches (ip : net.IP) (f : IPFamily) :
  family_tag f -> ~ contradicts ip f -> family_matches ip f.
Proof.
  unfold family_matches, contradicts, family_tag, IPv4, IPv6.
  intros [-> | [-> | ->]] H; [now left | |];
    destruct (isIPv4_dec ip) as [H4 | H4]; tauto.
Qed.

(** The answer of [checked] with the reason for it. *)
Lemma checked_spec (ip : string) (f : IPFamily) :
  (ip = "" /\ checked ip f = None)
  \/ (ip <> "" /\ net.ParseIP ip = None
      /\ checked ip f = Some (errorString ("invalid ip address " ++ ip)))
  \/ (ip <> "" /\ exists parsedIP,
        net.ParseIP ip = Some parsedIP /\
        ((contradicts parsedIP f /\
          checked ip f
          = Some (errorString
                    ("ip address and family mismatch " ++ ip ++ ", " ++ f)))
         \/ (~ contradicts parsedIP f /\ checked ip f = None))).
Proof.
  destruct (String.eqb_spec ip "") as [-> | Hne]; [left; now split |].
  right. destruct (net.ParseIP ip) as [parsedIP |] eqn:Hp.
  - right. split; [exact Hne |]. exists parsedIP. split; [reflexivity |].
    unfold checked. rewrite (nonempty_test _ Hne), Hp.
    unfold contradicts, isIPv4.
    destruct (net.To4 parsedIP) as [ip4 |].
    + destruct (String.eqb_spec f IPv6) as [-> | H6].
      * left. split; [right; split; [discriminate | reflexivity] | reflexivity].
      * right. split; [| reflexivity].
        intros [[H _] | [_ H]]; [now elim H | contradiction].
    + destruct (String.eqb_spec f IPv4) as [-> | H4].
      * left. split; [left; split; [tauto | reflexivity] | reflexivity].
      * right. split; [| reflexivity].
        intros [[_ H] | [H _]]; [contradiction | now elim H].
  - left. split; [exact Hne |]. split; [reflexivity |].
    now apply checked_unparsed.
Qed.

Lemma checked_none_iff (ip : string) (f : IPFamily) :
  family_tag f ->
  (checked ip f = None <->
   ip = "" \/
   exists parsedIP, net.ParseIP ip = Some parsedIP /\ family_matches parsedIP f).
Proof.
  intros Hf. split.
  - intros E.
    destruct (checked_spec ip f)
      as [[H _] | [(_ & _ & H) | (_ & parsedIP & Hp & [[_ H] | [H _]])]];
      try congruence; [now left |].
    right. exists parsedIP. split; [exact Hp |].
    now apply not_contradicts_family_matches.
  - intros [-> | (parsedIP & Hp & Hm)];
      [apply checked_empty | now apply (checked_matches _ _ parsedIP)].
Qed.

Lemma NewLocalPort_acceptable desc ip ipFamily port protocol :
  (acceptable ip ipFamily protocol <->
   NewLocalPort desc ip ipFamily port protocol
   = (Some (mkLocalPort desc ip ipFamily port protocol), None))
  /\ (~ acceptable ip ipFamily protocol <->
      exists err,
        NewLocalPort desc ip ipFamily port protocol = (None, Some err)).
Proof.
  unfold acceptable.
  destruct (supported_dec protocol) as [Hs | Hs].
  2:{ rewrite (NewLocalPort_unsupported _ _ _ _ _ Hs).
      repeat split; try tauto; try discriminate. intros _. now eexists. }
  destruct (family_tag_dec ipFamily) as [Hf | Hf].
  2:{ rewrite (NewLocalPort_bad_family _ _ _ _ _ Hs Hf).
      repeat split; try tauto; try discriminate. intros _. now eexists. }
  rewrite (NewLocalPort_checked _ _ _ _ _ Hs Hf).
  pose proof (checked_none_iff ip ipFamily Hf) as Hn.
  destruct (checked ip ipFamily) as [err |].
  - assert (Hno : ~ (ip = "" \/
                     exists parsedIP,
                       net.ParseIP ip = Some parsedIP
                       /\ family_matches parsedIP ipFamily)).
    { intros H. apply Hn in H. discriminate. }
    repeat split; try tauto; try discriminate. intros _. now eexists.
  - assert (Hyes : ip = "" \/
                   exists parsedIP,
                     net.ParseIP ip = Some parsedIP
                     /\ family_matches parsedIP ipFamily) by now apply Hn.
    repeat split; try tauto. intros (err & E). discriminate.
Qed.

(** Construction returns a descriptor or an error, never both and never
    neither: the descriptor, holding the inputs, exactly for the acceptable
    inputs, and an error for all others. *)
Theorem NewLocalPort_accepts_iff desc ip ipFamily port protocol :
  (acceptable ip ipFamily protocol <->
   NewLocalPort desc ip ipFamily port protocol
   = (Some (mkLocalPort desc ip ipFamily port protocol), None))
  /\ (~ acceptable ip ipFamily protocol <->
      exists err,
        NewLocalPort desc ip ipFamily port protocol = (None, Some err)).
Proof.
  unfold acceptable.
  destruct (supported_dec protocol) as [Hs | Hs].
  2:{ rewrite (NewLocalPort_unsupported _ _ _ _ _ Hs).
      repeat split; try tauto; try discriminate. intros _. now eexists. }
  destruct (family_tag_dec ipFamily) as [Hf | Hf].
  2:{ rewrite (NewLocalPort_bad_family _ _ _ _ _ Hs Hf).
      repeat split; try tauto; try discriminate. intros _. now eexists. }
  rewrite (NewLocalPort_checked _ _ _ _ _ Hs Hf).
  pose proof (checked_none_iff ip ipFamily Hf) as Hn.
  destruct (checked ip ipFamily) as [err |].
  - assert (Hno : ~ (ip = "" \/
                     exists parsedIP,
                       net.ParseIP ip = Some parsedIP
                       /\ family_matches parsedIP ipFamily)).
    { intros H. apply Hn in H. discriminate. }
    repeat split; try tauto; try discriminate. intros _. now eexists.
  - assert (Hyes : ip = "" \/
                   exists parsedIP,
                     net.ParseIP ip = Some parsedIP
                     /\ family_matches parsedIP ipFamily) by now apply Hn.
    repeat split; try tauto. intros (err & E). discriminate.
Qed.

(** Which error construction returns: each of the three kinds below is
    returned exactly under its own condition, the tests being made in the
    order protocol, family, address.  (The fourth kind, InvalidAddress, is
    C5.) *)
Theorem NewLocalPort_error_kinds desc ip ipFamily port protocol :
  (fails_with (fun err => exists p, UnsupportedProtocol p err)
     (NewLocalPort desc ip ipFamily port protocol)
   <-> ~ supported protocol)
  /\ (fails_with (fun err => exists f, InvalidAddressFamily f err)
        (NewLocalPort desc ip ipFamily port protocol)
      <-> supported protocol /\ ~ family_tag ipFamily)
  /\ (fails_with (fun err => exists a f, AddressFamilyMismatch a f err)
        (NewLocalPort desc ip ipFamily port protocol)
      <-> supported protocol /\ family_tag ipFamily /\ ip <> ""
          /\ exists parsedIP,
               net.ParseIP ip = Some parsedIP /\ contradicts parsedIP ipFamily).
Proof.
  unfold fails_with, UnsupportedProtocol, InvalidAddressFamily,
    AddressFamilyMismatch.
  destruct (supported_dec protocol) as [Hs | Hs].
  2:{ rewrite (NewLocalPort_unsupported _ _ _ _ _ Hs).
      split; [| split]; split; try tauto.
      - intros _. eexists. split; [reflexivity |]. now exists protocol.
      - intros (err & [= <-] & f & E). simpl in E. discriminate.
      - intros (err & [= <-] & a & f & E). simpl in E. discriminate. }
  destruct (family_tag_dec ipFamily) as [Hf | Hf].
  2:{ rewrite (NewLocalPort_bad_family _ _ _ _ _ Hs Hf).
      split; [| split]; split; try tauto.
      - intros (err & [= <-] & p & E). simpl in E. discriminate.
      - intros _. eexists. split; [reflexivity |]. now exists ipFamily.
      - intros (err & [= <-] & a & f & E). simpl in E. discriminate. }
  rewrite (NewLocalPort_checked _ _ _ _ _ Hs Hf).
  destruct (checked_spec ip ipFamily)
    as [[H0 E] | [(Hne & Hp & E) | (Hne & parsedIP & Hp & [[Hc E] | [Hc E]])]];
    rewrite E.
  - split; [| split]; split; try tauto;
      try (intros (err & Hr & _); discriminate Hr).
  - split; [| split]; split; try tauto.
    + intros (err & [= <-] & p & E'). simpl in E'. discriminate.
    + intros (err & [= <-] & f & E'). simpl in E'. discriminate.
    + intros (err & [= <-] & a & f & E'). simpl in E'. discriminate.
    + intros (_ & _ & _ & q & Hq & _). congruence.
  - split; [| split]; split; try tauto.
    + intros (err & [= <-] & p & E'). simpl in E'. discriminate.
    + intros (err & [= <-] & f & E'). simpl in E'. discriminate.
    + intros _. repeat split; auto. now exists parsedIP.
    + intros _. eexists. split; [reflexivity |]. now exists ip, ipFamily.
  - split; [| split]; split; try tauto;
      try (intros (err & Hr & _); discriminate Hr).
    intros (_ & _ & _ & q & Hq & Hcq). congruence.
Qed.

(** Construction does not look at the description: for any two of them, the
    other inputs the same, the error is the same and a descriptor is returned
    for the one exactly when one is for the other. *)
Theorem NewLocalPort_description_free desc desc' ip ipFamily port protocol :
  snd (NewLocalPort desc ip ipFamily port protocol)
  = snd (NewLocalPort desc' ip ipFamily port protocol)
  /\ (fst (NewLocalPort desc ip ipFamily port protocol) = None
      <-> fst (NewLocalPort desc' ip ipFamily port protocol) = None)
  /\ (fst (NewLocalPort desc ip ipFamily port protocol)
      = Some (mkLocalPort desc ip ipFamily port protocol)
      <-> fst (NewLocalPort desc' ip ipFamily port protocol)
          = Some (mkLocalPort desc' ip ipFamily port protocol)).
Proof.
  destruct (supported_dec protocol) as [Hs | Hs].
  2:{ rewrite !(NewLocalPort_unsupported _ _ _ _ _ Hs). simpl.
      repeat split; auto; discriminate. }
  destruct (family_tag_dec ipFamily) as [Hf | Hf].
  2:{ rewrite !(NewLocalPort_bad_family _ _ _ _ _ Hs Hf). simpl.
      repeat split; auto; discriminate. }
  rewrite !(NewLocalPort_checked _ _ _ _ _ Hs Hf).
  destruct (checked ip ipFamily); simpl; repeat split; auto; discriminate.
Qed.

(** A non-empty address with neither a dot nor a colon in it, such as a host
    name or a bare number, is no IP literal: with a valid protocol and family
    construction refuses it with the InvalidAddress error. *)
Theorem NewLocalPort_refuses_names desc ip ipFamily port protocol :
  supported protocol -> family_tag ipFamily -> ip <> "" ->
  contains_byte "." ip = false -> contains_byte ":" ip = false ->
  fails_with (InvalidAddress ip) (NewLocalPort desc ip ipFamily port protocol).
Proof.
  intros Hs Hf Hne Hd Hc.
  rewrite (NewLocalPort_checked _ _ _ _ _ Hs Hf).
  rewrite (checked_unparsed _ _ Hne (ParseIP_scan_none ip ip Hd Hc)).
  eexists. split; reflexivity.
Qed.

(** With the family "6", construction never accepts a non-empty address that
    has no colon in it: whatever the other inputs, it returns an error and no
    descriptor. *)
Theorem NewLocalPort_v6_needs_colon desc ip port protocol :
  ip <> "" -> contains_byte ":" ip = false ->
  exists err, NewLocalPort desc ip IPv6 port protocol = (None, Some err).
Proof.
  intros Hne Hc. apply NewLocalPort_acceptable.
  intros (_ & _ & [H | (parsedIP & Hp & Hm)]); [contradiction |].
  destruct (isIPv4_dec parsedIP) as [H4 | H4].
  - unfold family_matches, IPv4, IPv6 in Hm.
    destruct Hm as [E | [[E _] | [_ H]]]; try discriminate E. contradiction.
  - rewrite (ParseIP_colon _ _ Hp H4) in Hc. discriminate.
Qed.

(** With the family "4" and a supported protocol, an address with a colon in
    it is accepted exactly when it is an IPv4-mapped literal. *)
Theorem NewLocalPort_v4_colon_iff_mapped desc ip port protocol :
  supported protocol -> contains_byte ":" ip = true ->
  (NewLocalPort desc ip IPv4 port protocol
   = (Some (mkLocalPort desc ip IPv4 port protocol), None)
   <-> IPv4MappedLiteral ip).
Proof.
  intros Hs Hc. pose proof (contains_nonempty _ _ Hc) as Hne.
  split.
  - intros E. apply NewLocalPort_acceptable in E.
    destruct E as (_ & _ & [H | (parsedIP & Hp & Hm)]); [contradiction |].
    split; [exact Hc |]. exists parsedIP. split; [exact Hp |].
    apply (ParseIP_isIPv4_iff _ _ Hp).
    unfold family_matches, IPv4, IPv6 in Hm.
    destruct Hm as [E | [[_ H] | [E _]]]; try discriminate E. exact H.
  - intros (_ & parsedIP & Hp & Hm). apply NewLocalPort_acceptable.
    split; [exact Hs |]. split; [unfold family_tag, IPv4; auto |].
    right. exists parsedIP. split; [exact Hp |]. right. left.
    split; [reflexivity | now apply IPv4Mapped_isIPv4].
Qed.

(** *** Opening, branch by branch *)

Lemma append_assoc (a b c : string) : (a ++ b) ++ c = a ++ b ++ c.
Proof. induction a as [| x a IH]; simpl; [reflexivity | now rewrite IH]. Qed.

Lemma openLocalPort_tcp_prog (lp : LocalPort) :
  lp_Protocol lp = "tcp" ->
  openLocalPort lp
  = Do (net_Listen (network lp) (hostPort lp))
      (fun r => match r with
                | Fail err => Ret (None, Some err)
                | Ok listener => Ret (Some (OfListener listener), None)
                end).
Proof.
  intros H. unfold openLocalPort, network, hostPort. rewrite H. reflexivity.
Qed.

Lemma openLocalPort_udp_prog (lp : LocalPort) :
  lp_Protocol lp = "udp" ->
  openLocalPort lp
  = Do (net_ResolveUDPAddr (network lp) (hostPort lp))
      (fun r => match r with
                | Fail err => Ret (None, Some err)
                | Ok addr =>
                    Do (net_ListenUDP (network lp) addr)
                      (fun r' => match r' with
                                 | Fail err => Ret (None, Some err)
                                 | Ok conn => Ret (Some (OfUDPConn conn), None)
                                 end)
                end).
Proof.
  intros H. unfold openLocalPort, network, hostPort. rewrite H. reflexivity.
Qed.

Lemma OpenLocalPort_tcp_run (l : listenPortOpener) lp (os : OS)
    (st : os_state os) :
  lp_Protocol lp = "tcp" ->
  run os (OpenLocalPort l lp) st
  = (match fst (os_answer os _ (net_Listen (network lp) (hostPort lp)) st) with
     | Ok listener => (Some (OfListener listener), None)
     | Fail err => (None, Some err)
     end,
     snd (os_answer os _ (net_Listen (network lp) (hostPort lp)) st),
     [Called (net_Listen (network lp) (hostPort lp))]).
Proof.
  intros H. simpl OpenLocalPort. rewrite (openLocalPort_tcp_prog _ H). simpl.
  destruct (os_answer os _ (net_Listen (network lp) (hostPort lp)) st)
    as [[listener | err] st']; reflexivity.
Qed.

Lemma OpenLocalPort_udp_run (l : listenPortOpener) lp (os : OS)
    (st : os_state os) :
  lp_Protocol lp = "udp" ->
  match os_answer os _ (net_ResolveUDPAddr (network lp) (hostPort lp)) st with
  | (Fail err, st1) =>
      run os (OpenLocalPort l lp) st
      = ((None, Some err), st1,
         [Called (net_ResolveUDPAddr (network lp) (hostPort lp))])
  | (Ok addr, st1) =>
      run os (OpenLocalPort l lp) st
      = (match fst (os_answer os _ (net_ListenUDP (network lp) addr) st1) with
         | Ok conn => (Some (OfUDPConn conn), None)
         | Fail err => (None, Some err)
         end,
         snd (os_answer os _ (net_ListenUDP (network lp) addr) st1),
         [Called (net_ResolveUDPAddr (network lp) (hostPort lp));
          Called (net_ListenUDP (network lp) addr)])
  end.
Proof.
  intros H. simpl OpenLocalPort. rewrite (openLocalPort_udp_prog _ H). simpl.
  destruct (os_answer os _ (net_ResolveUDPAddr (network lp) (hostPort lp)) st)
    as [[addr | err] st1]; simpl; [| reflexivity].
  destruct (os_answer os _ (net_ListenUDP (network lp) addr) st1)
    as [[conn | err] st2]; reflexivity.
Qed.

(** Opening a "tcp" descriptor makes one call, [net.Listen] on the network
    "tcp" followed by the family and on the address and port joined: the
    listener it answers is the handle returned, with no error, and the error
    it answers is returned as it is, with no handle. *)
Theorem OpenLocalPort_tcp (l : listenPortOpener) lp (os : OS)
    (st : os_state os) :
  lp_Protocol lp = "tcp" ->
  run os (OpenLocalPort l lp) st
  = (match fst (os_answer os _ (net_Listen (network lp) (hostPort lp)) st) with
     | Ok listener => (Some (OfListener listener), None)
     | Fail err => (None, Some err)
     end,
     snd (os_answer os _ (net_Listen (network lp) (hostPort lp)) st),
     [Called (net_Listen (network lp) (hostPort lp))]).
Proof.
  intros H. simpl OpenLocalPort. rewrite (openLocalPort_tcp_prog _ H). simpl.
  destruct (os_answer os _ (net_Listen (network lp) (hostPort lp)) st)
    as [[listener | err] st']; reflexivity.
Qed.

(** Opening a "udp" descriptor resolves the address first, on the network
    "udp" followed by the family.  When the resolver fails its error is
    returned and no socket is asked for; otherwise [net.ListenUDP] is called
    on the same network with the resolved address, and its connection or its
    error is what is returned. *)
Theorem OpenLocalPort_udp (l : listenPortOpener) lp (os : OS)
    (st : os_state os) :
  lp_Protocol lp = "udp" ->
  match os_answer os _ (net_ResolveUDPAddr (network lp) (hostPort lp)) st with
  | (Fail err, st1) =>
      run os (OpenLocalPort l lp) st
      = ((None, Some err), st1,
         [Called (net_ResolveUDPAddr (network lp) (hostPort lp))])
  | (Ok addr, st1) =>
      run os (OpenLocalPort l lp) st
      = (match fst (os_answer os _ (net_ListenUDP (network lp) addr) st1) with
         | Ok conn => (Some (OfUDPConn conn), None)
         | Fail err => (None, Some err)
         end,
         snd (os_answer os _ (net_ListenUDP (network lp) addr) st1),
         [Called (net_ResolveUDPAddr (network lp) (hostPort lp));
          Called (net_ListenUDP (network lp) addr)])
  end.
Proof.
  intros H. simpl OpenLocalPort. rewrite (openLocalPort_udp_prog _ H). simpl.
  destruct (os_answer os _ (net_ResolveUDPAddr (network lp) (hostPort lp)) st)
    as [[addr | err] st1]; simpl; [| reflexivity].
  destruct (os_answer os _ (net_ListenUDP (network lp) addr) st1)
    as [[conn | err] st2]; reflexivity.
Qed.

Lemma protocol_cases (protocol : string) :
  protocol = "tcp" \/ protocol = "udp" \/ protocol = "sctp"
  \/ ~ supported protocol.
Proof. destruct (supported_dec protocol) as [H | H]; unfold supported in *; tauto. Qed.

(** The result of opening, against any system: never a handle together with
    an error; a handle only for "tcp" and "udp"; and neither handle nor error
    exactly for "sctp", so that a caller must test the handle before it
    closes it. *)
Theorem OpenLocalPort_handle_or_error (l : listenPortOpener) lp (os : OS)
    (st : os_state os) :
  match fst (fst (run os (OpenLocalPort l lp) st)) with
  | (Some _, Some _) => False
  | (Some _, None) => lp_Protocol lp = "tcp" \/ lp_Protocol lp = "udp"
  | (None, Some _) => lp_Protocol lp <> "sctp"
  | (None, None) => lp_Protocol lp = "sctp"
  end.
Proof.
  destruct (protocol_cases (lp_Protocol lp)) as [H | [H | [H | H]]].
  - rewrite (OpenLocalPort_tcp_run l lp os st H). simpl.
    destruct (fst (os_answer os _ (net_Listen (network lp) (hostPort lp)) st));
      [now left | congruence].
  - pose proof (OpenLocalPort_udp_run l lp os st H) as R.
    destruct (os_answer os _ (net_ResolveUDPAddr (network lp) (hostPort lp)) st)
      as [[addr | err] st1]; rewrite R; simpl; [| congruence].
    destruct (fst (os_answer os _ (net_ListenUDP (network lp) addr) st1));
      [now right | congruence].
  - simpl OpenLocalPort. unfold openLocalPort. rewrite H. reflexivity.
  - destruct (unsupported_tests _ H) as (Et & Eu & Es).
    simpl OpenLocalPort. unfold openLocalPort. rewrite Et, Eu, Es. simpl.
    intros E. apply H. right. right. exact E.
Qed.

(** *** Construction, then rendering and opening *)

Lemma NewLocalPort_validated desc ip ipFamily port protocol lp :
  NewLocalPort desc ip ipFamily port protocol = (Some lp, None) ->
  lp = mkLocalPort desc ip ipFamily port protocol
  /\ acceptable ip ipFamily protocol.
Proof.
  intros E. destruct (supported_dec protocol) as [Hs | Hs].
  2:{ rewrite (NewLocalPort_unsupported _ _ _ _ _ Hs) in E. discriminate. }
  destruct (family_tag_dec ipFamily) as [Hf | Hf].
  2:{ rewrite (NewLocalPort_bad_family _ _ _ _ _ Hs Hf) in E. discriminate. }
  rewrite (NewLocalPort_checked _ _ _ _ _ Hs Hf) in E.
  destruct (checked ip ipFamily) eqn:Ec; [discriminate |].
  injection E as <-. split; [reflexivity |].
  split; [exact Hs |]. split; [exact Hf |].
  now apply (checked_none_iff ip ipFamily Hf).
Qed.

(** On a system that grants every request, opening a descriptor that
    construction returned gives no error, and gives a handle unless the
    protocol is "sctp". *)
Theorem construct_then_open desc ip ipFamily port protocol lp
    (l : listenPortOpener) (os : OS) (st : os_state os) :
  NewLocalPort desc ip ipFamily port protocol = (Some lp, None) ->
  grants os ->
  snd (fst (fst (run os (OpenLocalPort l lp) st))) = None
  /\ (fst (fst (fst (run os (OpenLocalPort l lp) st))) = None
      <-> protocol = "sctp").
Proof.
  intros E (Gl & Gr & Gu).
  destruct (NewLocalPort_validated _ _ _ _ _ _ E) as (-> & Hs & _).
  clear E. destruct Hs as [-> | [-> | ->]].
  - set (lp := mkLocalPort desc ip ipFamily port "tcp").
    rewrite (OpenLocalPort_tcp_run l lp os st eq_refl).
    destruct (Gl (network lp) (hostPort lp) st) as (x & st' & ->).
    simpl. split; [reflexivity | split; discriminate].
  - set (lp := mkLocalPort desc ip ipFamily port "udp").
    pose proof (OpenLocalPort_udp_run l lp os st eq_refl) as R.
    destruct (Gr (network lp) (hostPort lp) st) as (addr & st1 & Ea).
    rewrite Ea in R. rewrite R.
    destruct (Gu (network lp) addr st1) as (conn & st2 & ->).
    simpl. split; [reflexivity | split; discriminate].
  - simpl. split; [reflexivity | split; reflexivity].
Qed.

(** Opening a descriptor that construction returned gives an error only when
    a call to the system failed, and then gives that error as it is: the
    error of [net.Listen], of the resolver, or of [net.ListenUDP] after the
    resolver answered.  The "unknown protocol" error is never one of the
    opener's own making. *)
Theorem constructed_open_error_is_the_systems desc ip ipFamily port protocol
    lp (l : listenPortOpener) (os : OS) (st : os_state os) err :
  NewLocalPort desc ip ipFamily port protocol = (Some lp, None) ->
  snd (fst (fst (run os (OpenLocalPort l lp) st))) = Some err ->
  (protocol = "tcp" /\
   fst (os_answer os _ (net_Listen (network lp) (hostPort lp)) st) = Fail err)
  \/ (protocol = "udp" /\
      fst (os_answer os _ (net_ResolveUDPAddr (network lp) (hostPort lp)) st)
      = Fail err)
  \/ (protocol = "udp" /\
      exists addr st1,
        os_answer os _ (net_ResolveUDPAddr (network lp) (hostPort lp)) st
        = (Ok addr, st1)
        /\ fst (os_answer os _ (net_ListenUDP (network lp) addr) st1)
           = Fail err).
Proof.
  intros E. destruct (NewLocalPort_validated _ _ _ _ _ _ E) as (-> & Hs & _).
  clear E. destruct Hs as [-> | [-> | ->]].
  - set (lp := mkLocalPort desc ip ipFamily port "tcp").
    rewrite (OpenLocalPort_tcp_run l lp os st eq_refl). simpl.
    destruct (fst (os_answer os _ (net_Listen (network lp) (hostPort lp)) st));
      [discriminate |].
    intros [= ->]. left. now split.
  - set (lp := mkLocalPort desc ip ipFamily port "udp").
    pose proof (OpenLocalPort_udp_run l lp os st eq_refl) as R.
    destruct (os_answer os _
                (net_ResolveUDPAddr (network lp) (hostPort lp)) st)
      as [[addr | err0] st1]; rewrite R; simpl.
    + destruct (fst (os_answer os _ (net_ListenUDP (network lp) addr) st1))
        eqn:El; [discriminate |].
      intros [= ->]. right. right. split; [reflexivity |].
      exists addr, st1. now split.
    + intros [= ->]. right. left. now split.
  - simpl. discriminate.
Qed.

(** The descriptor construction returns for a non-empty address and the
    family "6" renders with the address in brackets and the protocol followed
    by 6. *)
Theorem constructed_v6_renders_bracketed desc ip port protocol lp :
  ip <> "" ->
  NewLocalPort desc ip IPv6 port protocol = (Some lp, None) ->
  LocalPort_String lp
  = strconv.Quote isPrintTable desc ++ " ([" ++ ip ++ "]:"
    ++ strconv.Itoa port ++ "/" ++ protocol ++ "6)".
Proof.
  intros Hne E.
  destruct (NewLocalPort_validated _ _ _ _ _ _ E)
    as (-> & _ & _ & [H | (parsedIP & Hp & Hm)]); [contradiction |].
  assert (H6 : ~ isIPv4 parsedIP).
  { unfold family_matches, IPv4, IPv6 in Hm.
    destruct Hm as [E0 | [[E0 _] | [_ H]]]; try discriminate E0. exact H. }
  unfold LocalPort_String, fmt_Sprintf, net.JoinHostPort. simpl.
  rewrite (ParseIP_colon _ _ Hp H6). simpl.
  now rewrite !append_assoc.
Qed.

(** Every call opening makes to the system is on the network and, for the
    bind and the resolver, on the address that [String] shows between the
    parentheses. *)
Theorem String_shows_what_open_binds lp (l : listenPortOpener) (os : OS)
    (st : os_state os) :
  LocalPort_String lp
  = strconv.Quote isPrintTable (lp_Description lp) ++ " ("
    ++ hostPort lp ++ "/" ++ network lp ++ ")"
  /\ forall ev,
       In ev (snd (run os (OpenLocalPort l lp) st)) ->
       ev = Called (net_Listen (network lp) (hostPort lp))
       \/ ev = Called (net_ResolveUDPAddr (network lp) (hostPort lp))
       \/ exists addr, ev = Called (net_ListenUDP (network lp) addr).
Proof.
  split.
  - unfold LocalPort_String, fmt_Sprintf, hostPort, network. simpl.
    now rewrite !append_assoc.
  - destruct (protocol_cases (lp_Protocol lp)) as [H | [H | [H | H]]].
    + rewrite (OpenLocalPort_tcp_run l lp os st H). simpl.
      intros ev [<- | []]. now left.
    + pose proof (OpenLocalPort_udp_run l lp os st H) as R.
      destruct (os_answer os _
                  (net_ResolveUDPAddr (network lp) (hostPort lp)) st)
        as [[addr | err] st1]; rewrite R; simpl.
      * intros ev [<- | [<- | []]]; [now right; left |].
        right. right. now exists addr.
      * intros ev [<- | []]. now right; left.
    + simpl OpenLocalPort. unfold openLocalPort. rewrite H. simpl. tauto.
    + destruct (unsupported_tests _ H) as (Et & Eu & Es).
      simpl OpenLocalPort. unfold openLocalPort. rewrite Et, Eu, Es. simpl.
      tauto.
Qed.

End LocalPorts.

(** ** Instances

    Each theorem above with a hypothesis, applied to a case of the test table
    of [port_test.go] or of the specification. *)

Lemma NewLocalPort_family_mismatch_witness :
  "2001:db8::2" <> ""
  /\ net.ParseIP "2001:db8::2"
     = Some [0x20; 0x01; 0x0d; 0xb8; 0; 0; 0; 0; 0; 0; 0; 0; 0; 0; 0; 2]
  /\ fst (NewLocalPort noTable "IP family mismatch" "2001:db8::2" IPv4 80 "sctp")
     = None
  /\ fails_with (AddressFamilyMismatch "2001:db8::2" IPv4)
       (NewLocalPort noTable "IP family mismatch" "2001:db8::2" IPv4 80 "sctp").
Proof.
  assert (Hne : "2001:db8::2" <> "") by discriminate.
  assert (Hp : net.ParseIP "2001:db8::2"
               = Some [0x20; 0x01; 0x0d; 0xb8; 0; 0; 0; 0; 0; 0; 0; 0; 0; 0; 0; 2])
    by reflexivity.
  assert (Hc : contradicts
                 [0x20; 0x01; 0x0d; 0xb8; 0; 0; 0; 0; 0; 0; 0; 0; 0; 0; 0; 2] IPv4).
  { left. split; [| reflexivity]. intros H. now apply H. }
  destruct (NewLocalPort_family_mismatch noTable "IP family mismatch"
              "2001:db8::2" IPv4 80 "sctp" _ Hne Hp Hc) as [Hnone Hfail].
  repeat split; try assumption.
  apply Hfail. right. right. reflexivity.
Defined.

Lemma openLocalPort_sctp_witness :
  run generous
    (openLocalPort noTable (mkLocalPort "IPv4 SCTP" "9.10.11.12" "" 7777 "sctp"))
    1024
  = ((None, None), 1024, []).
Proof.
  apply (openLocalPort_sctp noTable
           (mkLocalPort "IPv4 SCTP" "9.10.11.12" "" 7777 "sctp")).
  reflexivity.
Defined.

Lemma NewLocalPort_unsupported_protocol_witness :
  ~ supported "TCP"
  /\ fails_with (UnsupportedProtocol "TCP")
       (NewLocalPort noTable "Unsupported protocol" "2001:db8::2" "" 80 "TCP").
Proof.
  assert (H : ~ supported "TCP").
  { intros [H | [H | H]]; discriminate H. }
  split; [exact H |].
  exact (NewLocalPort_unsupported_protocol noTable "Unsupported protocol"
           "2001:db8::2" "" 80 "TCP" H).
Defined.

Lemma NewLocalPort_invalid_family_witness :
  ~ family_tag "5"
  /\ fails_with (InvalidAddressFamily "5")
       (NewLocalPort noTable "Invalid ip family" "" "5" 80 "tcp").
Proof.
  assert (H : ~ family_tag "5").
  { intros [H | [H | H]]; discriminate H. }
  split; [exact H |].
  apply (NewLocalPort_invalid_family noTable "Invalid ip family" "" "5" 80
           "tcp" H).
  left. reflexivity.
Defined.

(** C4 as it was stated fails where the protocol is not supported either:
    the family tag "5" with the protocol "http" gives the error of the
    protocol, not an InvalidAddressFamily error. *)
Lemma NewLocalPort_invalid_family_any_protocol_fails :
  ~ family_tag "5"
  /\ NewLocalPort noTable "" "" "5" 80 "http"
     = (None, Some (errorString "Unsupported protocol http"))
  /\ ~ fails_with (InvalidAddressFamily "5")
        (NewLocalPort noTable "" "" "5" 80 "http")
  /\ ~ (forall desc ip ipFamily port protocol,
          ~ family_tag ipFamily ->
          fails_with (InvalidAddressFamily ipFamily)
            (NewLocalPort noTable desc ip ipFamily port protocol)).
Proof.
  assert (Hf : ~ family_tag "5").
  { intros [H | [H | H]]; discriminate H. }
  assert (Hn : ~ fails_with (InvalidAddressFamily "5")
                 (NewLocalPort noTable "" "" "5" 80 "http")).
  { intros (err & Hr & He). injection Hr as <-. discriminate He. }
  repeat split; try assumption; try reflexivity.
  intros H. exact (Hn (H "" "" "5" 80 "http" Hf)).
Qed.

Lemma NewLocalPort_invalid_address_witness :
  fails_with (InvalidAddress "300")
    (NewLocalPort noTable "Invalid IP" "300" "" 80 "tcp").
Proof.
  apply (proj2 (NewLocalPort_invalid_address_iff noTable "Invalid IP" "300" ""
                  80 "tcp")).
  split; [left; reflexivity |].
  split; [left; reflexivity |].
  split; [discriminate | reflexivity].
Defined.

Lemma NewLocalPort_succeeds_witness :
  exists lp,
    NewLocalPort noTable "IPv4 UDP" "1.2.3.4" "" 9999 "udp" = (Some lp, None)
    /\ lp_Description lp = "IPv4 UDP" /\ lp_IP lp = "1.2.3.4"
    /\ lp_IPFamily lp = "" /\ lp_Port lp = 9999 /\ lp_Protocol lp = "udp".
Proof.
  apply (NewLocalPort_succeeds noTable "IPv4 UDP" "1.2.3.4" "" 9999 "udp").
  - right. left. reflexivity.
  - left. reflexivity.
  - right. exists (net.IPv4 1 2 3 4). split; [reflexivity | left; reflexivity].
Defined.

Lemma openLocalPort_unknown_protocol_witness :
  exists err,
    Error err = "unknown protocol " ++ quoted "http"
    /\ run barren
         (openLocalPort noTable (mkLocalPort "web" "1.2.3.4" "" 80 "http")) tt
       = ((None, Some err), tt, []).
Proof.
  destruct (openLocalPort_unknown_protocol noTable
              (mkLocalPort "web" "1.2.3.4" "" 80 "http")) as (err & He & _ & Hr).
  { intros [H | [H | H]]; discriminate H. }
  exists err. split; [exact He | exact (Hr barren tt)].
Defined.

Lemma NewLocalPort_IPv4_mapped_witness :
  IPv4MappedLiteral "::ffff:1.2.3.4"
  /\ fails_with (AddressFamilyMismatch "::ffff:1.2.3.4" IPv6)
       (NewLocalPort noTable "mapped" "::ffff:1.2.3.4" IPv6 80 "tcp")
  /\ NewLocalPort noTable "mapped" "::ffff:1.2.3.4" IPv4 80 "tcp"
     = (Some (mkLocalPort "mapped" "::ffff:1.2.3.4" IPv4 80 "tcp"), None)
  /\ NewLocalPort noTable "mapped" "::ffff:1.2.3.4" "" 80 "tcp"
     = (Some (mkLocalPort "mapped" "::ffff:1.2.3.4" "" 80 "tcp"), None).
Proof.
  assert (Hm : IPv4MappedLiteral "::ffff:1.2.3.4").
  { split; [reflexivity |]. exists (net.IPv4 1 2 3 4).
    split; [reflexivity | split; reflexivity]. }
  split; [exact Hm |].
  apply (NewLocalPort_IPv4_mapped noTable "mapped" "::ffff:1.2.3.4" 80 "tcp");
    [left; reflexivity | exact Hm].
Defined.
(** ** Instances of the further properties *)

Lemma NewLocalPort_refuses_names_witness :
  fails_with (InvalidAddress "localhost")
    (NewLocalPort noTable "a host name" "localhost" "" 80 "tcp").
Proof.
  apply (NewLocalPort_refuses_names noTable "a host name" "localhost" "" 80 "tcp").
  - left. reflexivity.
  - left. reflexivity.
  - discriminate.
  - reflexivity.
  - reflexivity.
Defined.

Lemma NewLocalPort_v6_needs_colon_witness :
  exists err,
    NewLocalPort noTable "IP family mismatch" "1.2.3.4" IPv6 80 "sctp"
    = (None, Some err).
Proof.
  apply (NewLocalPort_v6_needs_colon noTable "IP family mismatch" "1.2.3.4" 80
           "sctp").
  - discriminate.
  - reflexivity.
Defined.

Lemma NewLocalPort_v4_colon_iff_mapped_witness :
  NewLocalPort noTable "IP family mismatch" "2001:db8::2" IPv4 80 "sctp"
  = (Some (mkLocalPort "IP family mismatch" "2001:db8::2" IPv4 80 "sctp"), None)
  <-> IPv4MappedLiteral "2001:db8::2".
Proof.
  apply (NewLocalPort_v4_colon_iff_mapped noTable "IP family mismatch"
           "2001:db8::2" 80 "sctp").
  - right. right. reflexivity.
  - reflexivity.
Defined.

Lemma OpenLocalPort_tcp_witness :
  run generous
    (@OpenLocalPort _ (listenPortOpener_PortOpener noTable) mkListenPortOpener
       (mkLocalPort "IPv4 TCP, all addresses" "" IPv4 1053 "tcp")) 3
  = ((Some (OfListener (TCPListener 3)), None), 4,
     [Called (net_Listen "tcp4" ":1053")]).
Proof.
  exact (OpenLocalPort_tcp noTable mkListenPortOpener
           (mkLocalPort "IPv4 TCP, all addresses" "" IPv4 1053 "tcp")
           generous 3 eq_refl).
Defined.

Lemma OpenLocalPort_udp_witness :
  run barren
    (@OpenLocalPort _ (listenPortOpener_PortOpener noTable) mkListenPortOpener
       (mkLocalPort "IPv4 UDP" "1.2.3.4" "" 9999 "udp")) tt
  = ((None, Some (errorString "resolve 1.2.3.4:9999")), tt,
     [Called (net_ResolveUDPAddr "udp" "1.2.3.4:9999")]).
Proof.
  exact (OpenLocalPort_udp noTable mkListenPortOpener
           (mkLocalPort "IPv4 UDP" "1.2.3.4" "" 9999 "udp") barren tt eq_refl).
Defined.

Lemma generous_grants : grants generous.
Proof.
  repeat split; intros; simpl; do 2 eexists; reflexivity.
Qed.

Lemma construct_then_open_witness :
  snd (fst (fst (run generous
                   (@OpenLocalPort _ (listenPortOpener_PortOpener noTable)
                      mkListenPortOpener
                      (mkLocalPort "IPv6 TCP" "2001:db8::1" "" 80 "tcp")) 3)))
  = None
  /\ (fst (fst (fst (run generous
                      (@OpenLocalPort _ (listenPortOpener_PortOpener noTable)
                         mkListenPortOpener
                         (mkLocalPort "IPv6 TCP" "2001:db8::1" "" 80 "tcp")) 3)))
      = None
      <-> "tcp" = "sctp").
Proof.
  exact (construct_then_open noTable "IPv6 TCP" "2001:db8::1" "" 80 "tcp"
           (mkLocalPort "IPv6 TCP" "2001:db8::1" "" 80 "tcp")
           mkListenPortOpener generous 3 eq_refl generous_grants).
Defined.

Lemma constructed_open_error_is_the_systems_witness :
  fst (os_answer barren _ (net_Listen "tcp" "5.6.7.8:1053") tt)
  = Fail (errorString "listen 5.6.7.8:1053").
Proof.
  destruct (constructed_open_error_is_the_systems noTable "IPv4 TCP" "5.6.7.8"
              "" 1053 "tcp" (mkLocalPort "IPv4 TCP" "5.6.7.8" "" 1053 "tcp")
              mkListenPortOpener barren tt
              (errorString "listen 5.6.7.8:1053") eq_refl eq_refl)
    as [[_ H] | [[E _] | [E _]]]; [exact H | discriminate E | discriminate E].
Defined.

Lemma constructed_v6_renders_bracketed_witness :
  LocalPort_String noTable (mkLocalPort "IPv6 TCP" "2001:db8::1" IPv6 80 "tcp")
  = quoted "IPv6 TCP" ++ " ([2001:db8::1]:80/tcp6)".
Proof.
  apply (constructed_v6_renders_bracketed noTable "IPv6 TCP" "2001:db8::1" 80
           "tcp" (mkLocalPort "IPv6 TCP" "2001:db8::1" IPv6 80 "tcp")).
  - discriminate.
  - reflexivity.
Defined.
